(** * AdminTour: the event list pipeline (fetch, normalize, filter, paginate)

    A shallow embedding of the [AdminTour] React component: its state, the
    state transitions performed by its handlers and effects, and the pure
    derivations recomputed at every render ([filteredList], [totalPages],
    [paginatedList], [categories], [getVisiblePages], ...).

    Conventions.
    - JavaScript strings are [string]s; the Korean literals of the source are
      kept as they are (UTF-8 in this file).  Equality, emptiness and the
      substring test only compare sequences, so the encoding does not matter.
    - JavaScript numbers that hold page numbers, sizes and indices are [Z];
      the one division of the component is taken in [Q] before [Math.ceil].
    - [String.prototype.toLowerCase] is a parameter of the development. *)

From Stdlib Require Import ZArith QArith Qround String Ascii List Lia Bool.
From stdpp Require Import base list strings gmap sorting.
From Equations Require Import Equations.


Local Open Scope Z_scope.

(** ** JavaScript built-ins used by the component *)

Module JS.

(** [ToBoolean] on a string: only the empty string is falsy. *)
Definition truthy (s : string) : bool := negb (String.eqb s "").

(** [s.includes(t)]: [t] occurs in [s] at some position. *)
Fixpoint includes (s t : string) : bool :=
  if String.prefix t s then true
  else match s with
       | EmptyString => false
       | String _ s' => includes s' t
       end.

(** [Array.prototype.slice(start, end)] with its relative indices and its
    clamping to the array's length. *)
Definition slice {A} (l : list A) (start end_ : Z) : list A :=
  let len := Z.of_nat (length l) in
  let k := if start <? 0 then Z.max (len + start) 0 else Z.min start len in
  let final := if end_ <? 0 then Z.max (len + end_) 0 else Z.min end_ len in
  take (Z.to_nat (final - k)) (drop (Z.to_nat k) l).

(** [new Set(iterable)] read back with [Array.from]: a [Set] keeps its
    elements in insertion order and ignores the insertion of an element
    it already holds. *)
Definition Set_add `{EqDecision A} (acc : list A) (x : A) : list A :=
  if bool_decide (x ∈ acc) then acc else acc ++ [x].

Definition Set_from `{EqDecision A} (l : list A) : list A :=
  fold_left Set_add l [].

(** [a / b] on integers, and [Math.ceil].  The quotient is exact here; the
    double the engine computes has the same ceiling whenever [a] and [b]
    are an array length and a page size, since then [a / b] is either an
    integer or further from every integer than the rounding error. *)
Definition div (a b : Z) : Q := (inject_Z a / inject_Z b)%Q.
Definition Math_ceil (q : Q) : Z := Qceiling q.

(** The values a property read on an object literal can give: a string
    it owns, a member inherited from [Object.prototype], or
    [undefined]. *)
Inductive value :=
| undefined
| str (s : string)
| native (name : string).

Definition truthy_value (v : value) : bool :=
  match v with
  | undefined => false
  | str s => truthy s
  | native _ => true
  end.

(** [a || b] *)
Definition or (a b : value) : value := if truthy_value a then a else b.

(** The property names every object literal inherits. *)
Definition Object_prototype : list string :=
  [ "constructor"; "toString"; "toLocaleString"; "valueOf";
    "hasOwnProperty"; "isPrototypeOf"; "propertyIsEnumerable";
    "__proto__"; "__defineGetter__"; "__defineSetter__";
    "__lookupGetter__"; "__lookupSetter__" ].

(** [o[k]] on an object literal whose own properties are [o]. *)
Definition get (o : gmap string string) (k : string) : value :=
  match o !! k with
  | Some v => str v
  | None => if bool_decide (k ∈ Object_prototype) then native k else undefined
  end.

(** ASCII instance of [toLowerCase], for the examples. *)
Definition lower_ascii (c : ascii) : ascii :=
  let n := nat_of_ascii c in
  if ((65 <=? n) && (n <=? 90))%nat then ascii_of_nat (n + 32) else c.

Fixpoint toLowerCase_ascii (s : string) : string :=
  match s with
  | EmptyString => EmptyString
  | String c s' => String (lower_ascii c) (toLowerCase_ascii s')
  end.

End JS.

(** ** Data model *)

(** The record the API returns. *)
Module GetTourList.
Record t := mk {
  category : string;
  address : string;
  event_name : string;
  start_date : string;
  end_date : string;
  event_fee : string;
}.
End GetTourList.

(** The record the component displays. *)
Module TourList.
Record t := mk {
  category : string;
  gu : string;
  event_name : string;
  start_date : string;
  end_date : string;
  is_free : bool;
  event_fee : option string;
}.
End TourList.

Inductive ViewMode := grid | table.

#[global] Instance ViewMode_eq_dec : EqDecision ViewMode.
Proof. solve_decision. Defined.

(** The component's state: one field per [useState]. *)
Module State.
Record t := mk {
  list : Datatypes.list TourList.t;
  loading : bool;
  error : option string;
  filterCategory : string;
  filterFeeType : string;
  searchTerm : string;
  selectedEvent : option TourList.t;
  isMobileView : bool;
  viewMode : ViewMode;
  currentPage : Z;
  itemsPerPage : Z;
}.

(** The state of the first render. *)
Definition init : t :=
  mk [] true None "" "" "" None false grid 1 10.
End State.

Section Setters.
Import State.

Definition setList v (s : State.t) : State.t :=
  mk v (loading s) (error s) (filterCategory s) (filterFeeType s)
     (searchTerm s) (selectedEvent s) (isMobileView s) (viewMode s)
     (currentPage s) (itemsPerPage s).
Definition setLoading v (s : State.t) : State.t :=
  mk (list s) v (error s) (filterCategory s) (filterFeeType s)
     (searchTerm s) (selectedEvent s) (isMobileView s) (viewMode s)
     (currentPage s) (itemsPerPage s).
Definition setError v (s : State.t) : State.t :=
  mk (list s) (loading s) v (filterCategory s) (filterFeeType s)
     (searchTerm s) (selectedEvent s) (isMobileView s) (viewMode s)
     (currentPage s) (itemsPerPage s).
Definition setFilterCategory v (s : State.t) : State.t :=
  mk (list s) (loading s) (error s) v (filterFeeType s)
     (searchTerm s) (selectedEvent s) (isMobileView s) (viewMode s)
     (currentPage s) (itemsPerPage s).
Definition setFilterFeeType v (s : State.t) : State.t :=
  mk (list s) (loading s) (error s) (filterCategory s) v
     (searchTerm s) (selectedEvent s) (isMobileView s) (viewMode s)
     (currentPage s) (itemsPerPage s).
Definition setSearchTerm v (s : State.t) : State.t :=
  mk (list s) (loading s) (error s) (filterCategory s) (filterFeeType s)
     v (selectedEvent s) (isMobileView s) (viewMode s)
     (currentPage s) (itemsPerPage s).
Definition setSelectedEvent v (s : State.t) : State.t :=
  mk (list s) (loading s) (error s) (filterCategory s) (filterFeeType s)
     (searchTerm s) v (isMobileView s) (viewMode s)
     (currentPage s) (itemsPerPage s).
Definition setIsMobileView v (s : State.t) : State.t :=
  mk (list s) (loading s) (error s) (filterCategory s) (filterFeeType s)
     (searchTerm s) (selectedEvent s) v (viewMode s)
     (currentPage s) (itemsPerPage s).
Definition setViewMode v (s : State.t) : State.t :=
  mk (list s) (loading s) (error s) (filterCategory s) (filterFeeType s)
     (searchTerm s) (selectedEvent s) (isMobileView s) v
     (currentPage s) (itemsPerPage s).
Definition setCurrentPage v (s : State.t) : State.t :=
  mk (list s) (loading s) (error s) (filterCategory s) (filterFeeType s)
     (searchTerm s) (selectedEvent s) (isMobileView s) (viewMode s)
     v (itemsPerPage s).
Definition setItemsPerPage v (s : State.t) : State.t :=
  mk (list s) (loading s) (error s) (filterCategory s) (filterFeeType s)
     (searchTerm s) (selectedEvent s) (isMobileView s) (viewMode s)
     (currentPage s) v.
End Setters.

(** ** fetchEvents *)

(** How the awaited [getEventList()] settles: it resolves with a response
    (possibly [undefined]) or it rejects. *)
Inductive FetchOutcome :=
| Resolved (response : option (list GetTourList.t))
| Rejected.

Definition empty_message : string :=
  "이벤트 데이터가 비어있거나 정의되지 않았습니다.".
Definition failure_message : string :=
  "문화 행사 데이터를 불러오는데 실패했습니다.".

(** The callback of [response.map]. *)
Definition normalize (e : GetTourList.t) : TourList.t :=
  {| TourList.category := GetTourList.category e;
     TourList.gu := GetTourList.address e;
     TourList.event_name := GetTourList.event_name e;
     TourList.start_date := GetTourList.start_date e;
     TourList.end_date := GetTourList.end_date e;
     TourList.is_free :=
       String.eqb (GetTourList.event_fee e) ""
       || String.eqb (GetTourList.event_fee e) "무료";
     TourList.event_fee := Some (GetTourList.event_fee e) |}.

(** The part of [fetchEvents] that runs before the [await]. *)
Definition fetchEvents_begin (s : State.t) : State.t :=
  setError None (setLoading true s).

(** The part that runs once the call has settled: the [try] body after the
    [await], or the [catch] block, and then [finally]. *)
Definition fetchEvents_settle (o : FetchOutcome) (s : State.t) : State.t :=
  let s' :=
    match o with
    | Resolved (Some response) =>
        if (0 <? Z.of_nat (length response))
        then setList (map normalize response) s
        else setError (Some empty_message) s
    | Resolved None => setError (Some empty_message) s
    | Rejected => setList [] (setError (Some failure_message) s)
    end in
  setLoading false s'.

Definition fetchEvents (o : FetchOutcome) (s : State.t) : State.t :=
  fetchEvents_settle o (fetchEvents_begin s).

(** ** Effects and handlers *)

(** [useEffect(effect, deps)]: the effect runs after the first render
    ([prev = None]) and after every render whose dependencies differ from
    those of the previous render.  [s] collects the state updates of the
    effects that ran before this one. *)
Definition useEffect {D} `{EqDecision D} (deps : State.t -> D)
    (effect : State.t -> State.t)
    (prev : option State.t) (rendered : State.t) (s : State.t) : State.t :=
  match prev with
  | None => effect s
  | Some p => if decide (deps p = deps rendered) then s else effect s
  end.

(** The effect on [[viewMode]]. *)
Definition viewMode_effect (rendered : State.t) (s : State.t) : State.t :=
  let s :=
    match State.viewMode rendered with
    | grid => setItemsPerPage 9 s
    | table => setItemsPerPage 10 s
    end in
  setCurrentPage 1 s.

(** The effect on [[filterCategory, filterFeeType, searchTerm]]. *)
Definition filter_effect (s : State.t) : State.t := setCurrentPage 1 s.

Definition filter_deps (s : State.t) : string * string * string :=
  (State.filterCategory s, State.filterFeeType s, State.searchTerm s).

(** The effects that run after a render of [rendered] following a render
    of [prev], in the order the component declares them. *)
Definition commit (prev : option State.t) (rendered : State.t) : State.t :=
  let s := useEffect State.viewMode (viewMode_effect rendered) prev rendered rendered in
  useEffect filter_deps filter_effect prev rendered s.

(** [checkScreenSize], given [window.innerWidth]. *)
Definition checkScreenSize (innerWidth : Z) (s : State.t) : State.t :=
  let s := setIsMobileView (innerWidth <? 768) s in
  if innerWidth <? 768 then setViewMode grid s else s.

Definition handleEventClick (event : TourList.t) (s : State.t) : State.t :=
  setSelectedEvent (Some event) s.
Definition closeModal (s : State.t) : State.t := setSelectedEvent None s.
Definition handlePageChange (page : Z) (s : State.t) : State.t :=
  setCurrentPage page s.
Definition handleEscKey (key : string) (s : State.t) : State.t :=
  if String.eqb key "Escape" && bool_decide (is_Some (State.selectedEvent s))
  then closeModal s else s.

(** What can happen to a mounted component. *)
Inductive Event :=
| ChangeCategory (value : string)
| ChangeFeeType (value : string)
| ChangeSearch (value : string)
| ClickReset
| ClickViewMode (mode : ViewMode)
| Resize (innerWidth : Z)
| ClickPage (page : Z)
| ClickItem (item : TourList.t)
| ClickClose
| KeyDown (key : string)
| ClickRefresh
| Settled (o : FetchOutcome).

Definition handle (ev : Event) (s : State.t) : State.t :=
  match ev with
  | ChangeCategory v => setFilterCategory v s
  | ChangeFeeType v => setFilterFeeType v s
  | ChangeSearch v => setSearchTerm v s
  | ClickReset => setSearchTerm "" (setFilterFeeType "" (setFilterCategory "" s))
  | ClickViewMode m => setViewMode m s
  | Resize w => checkScreenSize w s
  | ClickPage p => handlePageChange p s
  | ClickItem e => handleEventClick e s
  | ClickClose => closeModal s
  | KeyDown k => handleEscKey k s
  | ClickRefresh => fetchEvents_begin s
  | Settled o => fetchEvents_settle o s
  end.

(** One event: its handler, the render that follows, and the effects of
    that render. *)
Definition step (ev : Event) (s : State.t) : State.t :=
  commit (Some s) (handle ev s).

(** Mounting: the first render, then every effect. *)
Definition mount (innerWidth : Z) : State.t :=
  let s := checkScreenSize innerWidth State.init in
  let s := fetchEvents_begin s in
  let s := viewMode_effect State.init s in
  filter_effect s.

(** ** Values derived at every render *)

Section Filter.

(** [String.prototype.toLowerCase] *)
Variable toLowerCase : string -> string.

Definition matchesCategory (filterCategory : string) (item : TourList.t) : bool :=
  if JS.truthy filterCategory
  then String.eqb (TourList.category item) filterCategory
  else true.

Definition matchesFeeType (filterFeeType : string) (item : TourList.t) : bool :=
  if JS.truthy filterFeeType
  then (if String.eqb filterFeeType "free"
        then TourList.is_free item
        else negb (TourList.is_free item))
  else true.

Definition matchesSearch (searchTerm : string) (item : TourList.t) : bool :=
  if JS.truthy searchTerm
  then JS.includes (toLowerCase (TourList.event_name item))
                   (toLowerCase searchTerm)
  else true.

Definition filteredList (list : list TourList.t)
    (filterCategory filterFeeType searchTerm : string)
  : Datatypes.list TourList.t :=
  List.filter
    (fun item =>
       matchesCategory filterCategory item
       && matchesFeeType filterFeeType item
       && matchesSearch searchTerm item)
    list.

(** What the filter values ask of an event: each criterion binds only when
    its filter value is set. *)
Definition active_criteria (filterCategory filterFeeType searchTerm : string)
    (e : TourList.t) : Prop :=
  (filterCategory <> "" -> TourList.category e = filterCategory)
  /\ (filterFeeType = "free" -> TourList.is_free e = true)
  /\ (filterFeeType = "paid" -> TourList.is_free e = false)
  /\ (searchTerm <> "" ->
      exists a b,
        toLowerCase (TourList.event_name e) = a +:+ toLowerCase searchTerm +:+ b).

End Filter.

Definition totalPages {A} (filteredList : list A) (itemsPerPage : Z) : Z :=
  JS.Math_ceil (JS.div (Z.of_nat (length filteredList)) itemsPerPage).

Definition startIndex (currentPage itemsPerPage : Z) : Z :=
  (currentPage - 1) * itemsPerPage.

Definition paginatedList {A} (filteredList : list A)
    (currentPage itemsPerPage : Z) : list A :=
  JS.slice filteredList
    (startIndex currentPage itemsPerPage)
    (startIndex currentPage itemsPerPage + itemsPerPage).

Definition categories (list : list TourList.t) : Datatypes.list string :=
  JS.Set_from (map TourList.category list).

Definition colors : gmap string string :=
  list_to_map
    [ ("음악", "bg-purple-100 text-purple-800 border-purple-300");
      ("공연", "bg-pink-100 text-pink-800 border-pink-300");
      ("전시", "bg-indigo-100 text-indigo-800 border-indigo-300");
      ("축제", "bg-orange-100 text-orange-800 border-orange-300");
      ("체험", "bg-green-100 text-green-800 border-green-300");
      ("기타", "bg-gray-100 text-gray-800 border-gray-300") ].

Definition getCategoryColor (category : string) : JS.value :=
  JS.or (JS.get colors category) (JS.get colors "기타").

(** The text of the fee paragraph of the modal. *)
Definition fee_description (selectedEvent : TourList.t) : string :=
  if TourList.is_free selectedEvent
  then "무료 행사입니다"
  else match TourList.event_fee selectedEvent with
       | Some fee =>
           if JS.truthy fee then fee
           else "상세한 요금 정보가 제공되지 않았습니다."
       | None => "상세한 요금 정보가 제공되지 않았습니다."
       end.

(** ** Pagination *)

(** An entry of [rangeWithDots]: a page number or the string ["..."]. *)
Inductive PageItem :=
| Page (n : Z)
| Dots.

(** The [for] loop of [getVisiblePages]: [i] runs up to [hi] and is pushed
    on [range]. *)
Equations? range_loop (i hi : Z) (range : list Z) : list Z
  by wf (Z.to_nat (hi + 1 - i)) lt :=
range_loop i hi range with decide (i <= hi) := {
  | left _ => range_loop (i + 1) hi (range ++ [i])
  | right _ => range }.
Proof. lia. Defined.

(** [delta] in [getVisiblePages]. *)
Definition delta (isMobileView : bool) : Z := if isMobileView then 1 else 2.

Definition getVisiblePages (isMobileView : bool) (currentPage totalPages : Z)
  : list PageItem :=
  let delta := delta isMobileView in
  let range :=
    range_loop (Z.max 2 (currentPage - delta))
               (Z.min (totalPages - 1) (currentPage + delta)) [] in
  let rangeWithDots :=
    if 2 <? currentPage - delta then [Page 1; Dots] else [Page 1] in
  let rangeWithDots := rangeWithDots ++ map Page range in
  let rangeWithDots :=
    if currentPage + delta <? totalPages - 1
    then rangeWithDots ++ [Dots; Page totalPages]
    else rangeWithDots ++ [Page totalPages] in
  rangeWithDots.

(** The page entries [Pagination] renders, [None] when it returns [null]. *)
Definition Pagination (isMobileView : bool) (currentPage totalPages : Z)
  : option (list PageItem) :=
  if totalPages <=? 1 then None
  else Some (getVisiblePages isMobileView currentPage totalPages).

(** ** What is on screen, and which controls it offers *)

#[global] Instance TourList_eq_dec : EqDecision TourList.t.
Proof. solve_decision. Defined.

Inductive Layout := GridView | TableView.

(** [viewMode === "grid" || isMobileView ? <GridView /> : <TableView />] *)
Definition layout (s : State.t) : Layout :=
  if bool_decide (State.viewMode s = grid) || State.isMobileView s
  then GridView else TableView.

(** The two numbers of the "a - b" part of the page information:
    [startIndex + 1] and
    [Math.min(startIndex + itemsPerPage, filteredList.length)]. *)
Definition label_first (currentPage itemsPerPage : Z) : Z :=
  startIndex currentPage itemsPerPage + 1.

Definition label_last {A} (filteredList : list A)
    (currentPage itemsPerPage : Z) : Z :=
  Z.min (startIndex currentPage itemsPerPage + itemsPerPage)
        (Z.of_nat (length filteredList)).

Definition page_number (item : PageItem) : option Z :=
  match item with
  | Page n => Some n
  | Dots => None
  end.

(** The arguments [handlePageChange] can get from the buttons of
    [Pagination]: the previous page unless [currentPage === 1] disables
    that button, the numbered pages, and the next page unless
    [currentPage === totalPages] disables it. *)
Definition page_targets (isMobileView : bool) (currentPage totalPages : Z)
  : list Z :=
  (if bool_decide (currentPage = 1) then [] else [currentPage - 1])
  ++ omap page_number (getVisiblePages isMobileView currentPage totalPages)
  ++ (if bool_decide (currentPage = totalPages) then [] else [currentPage + 1]).

Section Rendered.

Variable toLowerCase : string -> string.

(** The derived values of a render of state [s]. *)
Definition rendered_filteredList (s : State.t) : list TourList.t :=
  filteredList toLowerCase (State.list s) (State.filterCategory s)
    (State.filterFeeType s) (State.searchTerm s).

Definition rendered_totalPages (s : State.t) : Z :=
  totalPages (rendered_filteredList s) (State.itemsPerPage s).

Definition rendered_paginatedList (s : State.t) : list TourList.t :=
  paginatedList (rendered_filteredList s)
    (State.currentPage s) (State.itemsPerPage s).

(** The content area shows the items and [Pagination] unless it shows the
    loading skeleton ([loading && list.length === 0]) or the empty notice
    ([filteredList.length === 0]). *)
Definition shows_items (s : State.t) : bool :=
  negb (State.loading s && bool_decide (State.list s = []))
  && negb (bool_decide (rendered_filteredList s = [])).

(** Whether the render of [s] lets event [ev] happen: the view toggle is
    only there on a wide viewport; the selects only offer their options; a
    page button, an item, the close button, the retry button and the
    refresh button have to be rendered and not disabled.  Key presses,
    resizes and the settling of a call are not restricted. *)
Definition enabled (ev : Event) (s : State.t) : bool :=
  match ev with
  | ChangeCategory v => bool_decide (v ∈ "" :: categories (State.list s))
  | ChangeFeeType v => bool_decide (v ∈ ["" ; "free"; "paid"])
  | ChangeSearch _ => true
  | ClickReset => true
  | ClickViewMode _ => negb (State.isMobileView s)
  | Resize _ => true
  | ClickPage p =>
      shows_items s
      && match Pagination (State.isMobileView s) (State.currentPage s)
                 (rendered_totalPages s) with
         | None => false
         | Some _ =>
             bool_decide
               (p ∈ page_targets (State.isMobileView s) (State.currentPage s)
                      (rendered_totalPages s))
         end
  | ClickItem e => shows_items s && bool_decide (e ∈ rendered_paginatedList s)
  | ClickClose => bool_decide (is_Some (State.selectedEvent s))
  | KeyDown _ => true
  | ClickRefresh =>
      bool_decide (is_Some (State.error s)) || negb (State.loading s)
  | Settled _ => true
  end.

(** The states the component goes through: the one after mounting, and
    the one after any event the current render lets happen. *)
Inductive reachable : State.t -> Prop :=
| reachable_mount (innerWidth : Z) : reachable (mount innerWidth)
| reachable_step (ev : Event) (s : State.t) :
    reachable s -> enabled ev s = true -> reachable (step ev s).

End Rendered.

(** ** Vocabulary of the statements *)

(** The position of the first occurrence of [x] in [l] (the length of [l]
    when there is none). *)
Fixpoint first_index `{EqDecision A} (x : A) (l : list A) : nat :=
  match l with
  | [] => 0
  | y :: l' => if decide (x = y) then 0 else S (first_index x l')
  end.

(** [r] lists its elements by increasing first occurrence in [L]. *)
Definition by_first_occurrence `{EqDecision A} (L r : list A) : Prop :=
  forall (i j : nat) (c d : A),
    r !! i = Some c -> r !! j = Some d -> (i < j)%nat ->
    (first_index c L < first_index d L)%nat.

(** The window of pages shown around the current page: the integers from
    [max(2, currentPage - delta)] to [min(totalPages - 1, currentPage + delta)]. *)
Definition window (isMobileView : bool) (currentPage totalPages : Z) : list Z :=
  seqZ (Z.max 2 (currentPage - delta isMobileView))
       (Z.min (totalPages - 1) (currentPage + delta isMobileView) + 1
        - Z.max 2 (currentPage - delta isMobileView)).

(** The colour of "기타". *)
Definition fallback_color : string := "bg-gray-100 text-gray-800 border-gray-300".

(** Sample data for the examples. *)
Definition sample_list : list TourList.t :=
  [ TourList.mk "음악" "마포구" "Seoul Jazz Festival" "" "" false (Some "50000원");
    TourList.mk "음악" "종로구" "Lunch JAZZ Concert" "" "" true (Some "무료");
    TourList.mk "전시" "중구" "Jazz Age Posters" "" "" true (Some "");
    TourList.mk "음악" "강남구" "Piano Recital" "" "" true (Some "") ].

Definition sample_raw : GetTourList.t :=
  GetTourList.mk "전시" "종로구" "Jazz Night" "2025-05-01" "2025-05-02" "1000원".

(** The state after a first fetch that returned one record. *)
Definition populated : State.t :=
  fetchEvents (Resolved (Some [sample_raw])) State.init.

(** ** Examples *)

Example getVisiblePages_wide :
  getVisiblePages false 5 10
  = [Page 1; Dots; Page 3; Page 4; Page 5; Page 6; Page 7; Dots; Page 10].
Proof. vm_compute. reflexivity. Qed.

(** ** Facts about the built-ins *)

Lemma prefix_spec (t s : string) :
  String.prefix t s = true <-> exists b, s = t +:+ b.
Proof.
  revert s. induction t as [|c t IH]; intros s.
  - split; [intros _; exists s; reflexivity | intros _; destruct s; reflexivity].
  - destruct s as [|d s]; simpl.
    + split; [discriminate | intros [b Hb]; discriminate].
    + destruct (Ascii.ascii_dec c d) as [->|Hne].
      * rewrite IH. split; intros [b Hb]; exists b; [now rewrite Hb | now inversion Hb].
      * split; [discriminate | intros [b Hb]; inversion Hb; congruence].
Qed.

Lemma includes_unfold (s t : string) :
  JS.includes s t =
  if String.prefix t s then true
  else match s with
       | EmptyString => false
       | String _ s' => JS.includes s' t
       end.
Proof. destruct s; reflexivity. Qed.

(** [includes] is the substring test. *)
Lemma includes_spec (s t : string) :
  JS.includes s t = true <-> exists a b, s = a +:+ t +:+ b.
Proof.
  split.
  - induction s as [|c s IH]; rewrite includes_unfold;
      destruct (String.prefix t _) eqn:Hp.
    + intros _. apply prefix_spec in Hp as [b Hb]. exists "", b. exact Hb.
    + discriminate.
    + intros _. apply prefix_spec in Hp as [b Hb]. exists "", b. exact Hb.
    + intros H. destruct (IH H) as (a & b & ->). exists (String c a), b. reflexivity.
  - intros (a & b & ->). induction a as [|c a IH]; rewrite includes_unfold.
    + assert (Hp : String.prefix t ("" +:+ t +:+ b) = true)
        by (apply prefix_spec; exists b; reflexivity).
      now rewrite Hp.
    + destruct (String.prefix t _); [reflexivity | exact IH].
Qed.

Lemma truthy_true (s : string) : JS.truthy s = true <-> s <> "".
Proof.
  unfold JS.truthy. destruct (String.eqb_spec s ""); simpl; split; congruence.
Qed.

Lemma truthy_empty : JS.truthy "" = false.
Proof. reflexivity. Qed.

(** [Math.ceil(a / b)] for a positive [b] is the least integer [k] with
    [a <= k * b]. *)
Lemma Math_ceil_div_spec (a b : Z) :
  0 < b ->
  (JS.Math_ceil (JS.div a b) - 1) * b < a <= JS.Math_ceil (JS.div a b) * b.
Proof.
  intros Hb. destruct b as [|p|p]; try lia.
  unfold JS.Math_ceil, JS.div, Qceiling, Qfloor, Qdiv, Qinv, Qmult, Qopp, inject_Z.
  simpl Qnum. simpl Qden. cbn [Z.mul Pos.mul].
  rewrite Z.mul_1_r.
  pose proof (Z.div_mod (- a) (Z.pos p) ltac:(lia)) as Hdm.
  pose proof (Z.mod_pos_bound (- a) (Z.pos p) ltac:(lia)) as Hmb.
  rewrite Pos.mul_1_l.
  set (q := (- a) `div` Z.pos p) in *. set (r := (- a) `mod` Z.pos p) in *.
  nia.
Qed.

Lemma Math_ceil_div_least (a b k : Z) :
  0 < b -> (JS.Math_ceil (JS.div a b) <= k <-> a <= k * b).
Proof.
  intros Hb. pose proof (Math_ceil_div_spec a b Hb). split; intros; nia.
Qed.

(** ** The filter *)

Section FilterFacts.

Variable toLowerCase : string -> string.

Lemma matchesCategory_true cat e :
  matchesCategory cat e = true -> cat <> "" -> TourList.category e = cat.
Proof.
  unfold matchesCategory. intros H Hne.
  apply truthy_true in Hne. rewrite Hne in H. now apply String.eqb_eq.
Qed.

Lemma matchesFeeType_free e :
  matchesFeeType "free" e = true -> TourList.is_free e = true.
Proof. unfold matchesFeeType. simpl. trivial. Qed.

Lemma matchesFeeType_paid e :
  matchesFeeType "paid" e = true -> TourList.is_free e = false.
Proof. unfold matchesFeeType. simpl. now destruct (TourList.is_free e). Qed.

Lemma matchesSearch_true term e :
  matchesSearch toLowerCase term e = true -> term <> "" ->
  exists a b,
    toLowerCase (TourList.event_name e) = a +:+ toLowerCase term +:+ b.
Proof.
  unfold matchesSearch. intros H Hne.
  apply truthy_true in Hne. rewrite Hne in H. now apply includes_spec.
Qed.

Lemma sublist_List_filter {A} (f : A -> bool) (l : list A) :
  sublist (List.filter f l) l.
Proof.
  induction l as [|x l IH]; simpl; [constructor|].
  destruct (f x); now constructor.
Qed.

Lemma Forall_List_filter {A} (f : A -> bool) (l : list A) :
  Forall (fun x => f x = true) (List.filter f l).
Proof.
  induction l as [|x l IH]; simpl; [constructor|].
  destruct (f x) eqn:Hx; [constructor|]; assumption.
Qed.

Lemma List_filter_all {A} (f : A -> bool) (l : list A) :
  (forall x, f x = true) -> List.filter f l = l.
Proof.
  intros Hf. induction l as [|x l IH]; simpl; [reflexivity|].
  now rewrite Hf, IH.
Qed.

(** C1. For every working list and every combination of the three filter
    values, the filtered list is a subsequence of the working list and each
    of its events meets every active criterion: the selected category, the
    fee type ("free": [is_free] true, "paid": [is_free] false) and the
    search term as a substring of the event name, both lower-cased.  An
    empty filter value lets every event pass its criterion. *)
Theorem filteredList_sound (list : list TourList.t)
    (filterCategory filterFeeType searchTerm : string) :
  sublist (filteredList toLowerCase list filterCategory filterFeeType searchTerm) list
  /\ Forall (active_criteria toLowerCase filterCategory filterFeeType searchTerm)
       (filteredList toLowerCase list filterCategory filterFeeType searchTerm)
  /\ (forall e, matchesCategory "" e = true)
  /\ (forall e, matchesFeeType "" e = true)
  /\ (forall e, matchesSearch toLowerCase "" e = true)
  /\ filteredList toLowerCase list "" "" "" = list.
Proof.
  split; [apply sublist_List_filter|].
  split.
  - unfold filteredList.
    eapply Forall_impl; [apply Forall_List_filter|].
    intros e He. cbv beta in He.
    apply andb_prop in He as [He Hs]. apply andb_prop in He as [Hc Hf].
    repeat split.
    + now apply matchesCategory_true.
    + intros ->. now apply matchesFeeType_free.
    + intros ->. now apply matchesFeeType_paid.
    + now apply matchesSearch_true.
  - repeat split; try reflexivity.
    now apply List_filter_all.
Qed.

End FilterFacts.

Example filteredList_music_free_jazz :
  map TourList.event_name
    (filteredList JS.toLowerCase_ascii sample_list "음악" "free" "jAzZ")
  = ["Lunch JAZZ Concert"].
Proof. vm_compute. reflexivity. Qed.

Example filteredList_paid :
  map TourList.event_name
    (filteredList JS.toLowerCase_ascii sample_list "" "paid" "")
  = ["Seoul Jazz Festival"].
Proof. vm_compute. reflexivity. Qed.

Example filteredList_search_only :
  map TourList.event_name
    (filteredList JS.toLowerCase_ascii sample_list "" "" "jazz")
  = ["Seoul Jazz Festival"; "Lunch JAZZ Concert"; "Jazz Age Posters"].
Proof. vm_compute. reflexivity. Qed.

(** ** Normalization *)

(** C3. The normalized record is free exactly when the raw fee is the
    empty string or the marker "무료"; a raw fee of "" is free and a raw
    fee of "1000원" is not. *)
Theorem normalize_is_free (e : GetTourList.t) (c a n s d : string) :
  (TourList.is_free (normalize e) = true
   <-> GetTourList.event_fee e = "" \/ GetTourList.event_fee e = "무료")
  /\ (TourList.is_free (normalize e) = false
      <-> ~ (GetTourList.event_fee e = "" \/ GetTourList.event_fee e = "무료"))
  /\ TourList.is_free (normalize (GetTourList.mk c a n s d "")) = true
  /\ TourList.is_free (normalize (GetTourList.mk c a n s d "1000원")) = false.
Proof.
  assert (H : TourList.is_free (normalize e) = true
     <-> GetTourList.event_fee e = "" \/ GetTourList.event_fee e = "무료").
  { unfold normalize. cbn [TourList.is_free].
    rewrite orb_true_iff, !String.eqb_eq. reflexivity. }
  split; [exact H|]. split; [|split; reflexivity].
  rewrite <- H. destruct (TourList.is_free (normalize e)); split; congruence.
Qed.

(** ** The fee paragraph of the modal *)

(** C8. The fee description of the selected event is "무료 행사입니다" when
    it is free; otherwise it is its raw fee when that string is not empty,
    and the placeholder when the fee is empty or absent. *)
Theorem fee_description_spec (selectedEvent : TourList.t) :
  (TourList.is_free selectedEvent = true ->
   fee_description selectedEvent = "무료 행사입니다")
  /\ (forall fee,
        TourList.is_free selectedEvent = false ->
        TourList.event_fee selectedEvent = Some fee -> fee <> "" ->
        fee_description selectedEvent = fee)
  /\ (TourList.is_free selectedEvent = false ->
      TourList.event_fee selectedEvent = Some ""
      \/ TourList.event_fee selectedEvent = None ->
      fee_description selectedEvent = "상세한 요금 정보가 제공되지 않았습니다.").
Proof.
  unfold fee_description. repeat split.
  - now intros ->.
  - intros fee -> -> Hne. apply truthy_true in Hne. now rewrite Hne.
  - intros -> [-> | ->]; reflexivity.
Qed.

(** ** Paging *)

Section Paging.

Context {A : Type}.
Implicit Types (l : list A) (size p : Z).

(** With a start inside [0, end], [slice] is a [take] after a [drop]. *)
Lemma slice_take_drop l (a b : Z) :
  0 <= a <= b ->
  JS.slice l a b = take (Z.to_nat (b - a)) (drop (Z.to_nat a) l).
Proof.
  intros Hab. unfold JS.slice.
  destruct (Z.ltb_spec a 0) as [?|_]; [lia|].
  destruct (Z.ltb_spec b 0) as [?|_]; [lia|].
  destruct (Z_le_gt_dec (Z.of_nat (length l)) a) as [Hge|Hlt].
  - rewrite !drop_ge by lia. now rewrite !take_nil.
  - rewrite (Z.min_l a) by lia.
    destruct (Z_le_gt_dec b (Z.of_nat (length l))) as [Hb|Hb].
    + now rewrite (Z.min_l b) by lia.
    + rewrite (Z.min_r b) by lia.
      rewrite !take_ge; [reflexivity| |]; rewrite length_drop; lia.
Qed.

Lemma paginatedList_take_drop l p size :
  0 < size -> 1 <= p ->
  paginatedList l p size =
  take (Z.to_nat size) (drop (Z.to_nat ((p - 1) * size)) l).
Proof.
  intros Hs Hp. unfold paginatedList, startIndex.
  assert (0 <= (p - 1) * size) by (apply Z.mul_nonneg_nonneg; lia).
  rewrite slice_take_drop by lia. do 2 f_equal. lia.
Qed.

(** Cutting a list in [n] consecutive chunks of [sz] loses nothing when
    [n * sz] covers it. *)
Lemma chunks_concat (n sz : nat) l :
  (length l <= n * sz)%nat ->
  concat (map (fun i => take sz (drop (i * sz) l)) (seq 0 n)) = l.
Proof.
  revert l. induction n as [|n IH]; intros l Hl.
  - destruct l; [reflexivity | simpl in Hl; lia].
  - cbn [seq map concat]. rewrite <- fmap_S_seq.
    change (S <$> seq 0 n) with (map S (seq 0 n)). rewrite map_map.
    rewrite (map_ext _ (fun i => take sz (drop (i * sz) (drop sz l)))).
    + rewrite IH by (rewrite length_drop; lia).
      simpl. apply take_drop.
    + intros i. rewrite drop_drop. do 2 f_equal.
Qed.

Lemma totalPages_nonneg l size : 0 < size -> 0 <= totalPages l size.
Proof.
  intros Hs. unfold totalPages.
  pose proof (Math_ceil_div_spec (Z.of_nat (length l)) size Hs). nia.
Qed.

Lemma pages_concat l size :
  0 < size ->
  concat (map (fun p => paginatedList l p size) (seqZ 1 (totalPages l size))) = l.
Proof.
  intros Hs. unfold seqZ.
  change (?f <$> ?x) with (map f x). rewrite map_map.
  rewrite (map_ext _ (fun i => take (Z.to_nat size) (drop (i * Z.to_nat size) l))).
  - apply chunks_concat.
    pose proof (Math_ceil_div_spec (Z.of_nat (length l)) size Hs) as Hc.
    pose proof (totalPages_nonneg l size Hs). unfold totalPages in *.
    nia.
  - intros i. rewrite paginatedList_take_drop by lia.
    do 2 f_equal. nia.
Qed.

(** C2. For every filtered list and every positive page size: the page
    count is the ceiling of length / size (the least [k] whose [k] pages
    hold the list); the slice of page [p] holds, at position [i] below the
    page size, the element of the filtered list at index
    [(p-1)*size + i], and nothing beyond the list's end; the slices of
    pages [1 .. totalPages], put end to end, are the filtered list; and 25
    records with page size 9 make 3 pages of 9, 9 and 7 records. *)
Theorem pagination_partitions (filteredList : list A) (itemsPerPage : Z) :
  0 < itemsPerPage ->
  (forall k : Z,
      totalPages filteredList itemsPerPage <= k
      <-> Z.of_nat (length filteredList) <= k * itemsPerPage)
  /\ (forall (p : Z) (i : nat),
        1 <= p ->
        paginatedList filteredList p itemsPerPage !! i =
        if decide (Z.of_nat i < itemsPerPage)
        then filteredList !! (Z.to_nat ((p - 1) * itemsPerPage) + i)%nat
        else None)
  /\ concat (map (fun p => paginatedList filteredList p itemsPerPage)
               (seqZ 1 (totalPages filteredList itemsPerPage)))
     = filteredList
  /\ (length filteredList = 25%nat -> itemsPerPage = 9 ->
      totalPages filteredList itemsPerPage = 3
      /\ map (fun p => length (paginatedList filteredList p itemsPerPage))
           (seqZ 1 (totalPages filteredList itemsPerPage))
         = [9; 9; 7]%nat).
Proof.
  intros Hs. split; [|split; [|split]].
  - intros k. now apply Math_ceil_div_least.
  - intros p i Hp. rewrite paginatedList_take_drop by lia.
    rewrite lookup_take, lookup_drop.
    repeat case_decide; try reflexivity; lia.
  - now apply pages_concat.
  - intros Hlen ->.
    assert (Htp : totalPages filteredList 9 = 3).
    { unfold totalPages. rewrite Hlen. reflexivity. }
    split; [exact Htp|]. rewrite Htp.
    change (seqZ 1 3) with [1; 2; 3]. cbn [map].
    rewrite !paginatedList_take_drop by lia.
    rewrite !length_take, !length_drop, Hlen. reflexivity.
Qed.

End Paging.

Lemma pagination_partitions_witness :
  0 < 9 /\ totalPages (seq 0 25) 9 = 3
  /\ map (fun p => paginatedList (seq 0 25) p 9) (seqZ 1 3)
     = [seq 0 9; seq 9 9; seq 18 7].
Proof.
  split; [lia|].
  destruct (pagination_partitions (seq 0 25) 9 ltac:(lia)) as (_ & _ & _ & H).
  destruct (H eq_refl eq_refl) as [Htp _].
  split; [exact Htp | vm_compute; reflexivity].
Defined.

(** ** Insertion-ordered sets *)

Section SetFacts.

Context `{EqDecision A}.
Implicit Types (x c d : A) (l acc : list A).

Lemma first_index_app_in c acc l :
  c ∈ acc -> first_index c (acc ++ l) = first_index c acc.
Proof.
  induction acc as [|y acc IH]; intros Hin; [now apply elem_of_nil in Hin|].
  simpl. destruct (decide (c = y)) as [|Hne]; [reflexivity|].
  apply elem_of_cons in Hin as [?|Hin]; [contradiction|].
  now rewrite IH.
Qed.

Lemma first_index_app_notin c acc l :
  c ∉ acc -> first_index c (acc ++ l) = (length acc + first_index c l)%nat.
Proof.
  induction acc as [|y acc IH]; intros Hin; [reflexivity|].
  apply not_elem_of_cons in Hin as [Hne Hin].
  simpl. destruct (decide (c = y)); [contradiction|].
  now rewrite IH.
Qed.

Lemma first_index_lt c l : c ∈ l -> (first_index c l < length l)%nat.
Proof.
  induction l as [|y l IH]; intros Hin; [now apply elem_of_nil in Hin|].
  simpl. destruct (decide (c = y)); [lia|].
  apply elem_of_cons in Hin as [?|Hin]; [contradiction|].
  specialize (IH Hin). lia.
Qed.

Lemma first_index_NoDup l i c :
  NoDup l -> l !! i = Some c -> first_index c l = i.
Proof.
  intros Hnd. revert i. induction Hnd as [|y l Hy Hnd IH]; intros i Hi.
  - discriminate.
  - destruct i as [|i]; simpl in *.
    + injection Hi as ->. now rewrite decide_True.
    + rewrite decide_False.
      * f_equal. now apply IH.
      * intros ->. apply Hy. eapply list_elem_of_lookup_2. exact Hi.
Qed.

(** Re-inserting a value already seen does not change the order of first
    occurrences. *)
Lemma first_index_seen_again x acc l c d :
  x ∈ acc ->
  (first_index c (acc ++ x :: l) < first_index d (acc ++ x :: l))%nat
  <-> (first_index c (acc ++ l) < first_index d (acc ++ l))%nat.
Proof.
  intros Hx.
  assert (Hshift : forall e, e ∉ acc ->
            first_index e (x :: l) = S (first_index e l)).
  { intros e He. simpl. rewrite decide_False; [reflexivity|]. now intros ->. }
  destruct (decide (c ∈ acc)) as [Hc|Hc], (decide (d ∈ acc)) as [Hd|Hd].
  - now rewrite !(first_index_app_in c), !(first_index_app_in d).
  - rewrite !(first_index_app_in c), !(first_index_app_notin d) by assumption.
    apply first_index_lt in Hc. lia.
  - rewrite !(first_index_app_notin c), !(first_index_app_in d) by assumption.
    apply first_index_lt in Hd. lia.
  - rewrite !(first_index_app_notin c), !(first_index_app_notin d) by assumption.
    rewrite !Hshift by assumption. lia.
Qed.

Lemma Set_add_elem x acc c : c ∈ JS.Set_add acc x <-> c ∈ acc \/ c = x.
Proof.
  unfold JS.Set_add. case_bool_decide as Hx.
  - split; [now left | intros [?| ->]; assumption].
  - rewrite elem_of_app, list_elem_of_singleton. reflexivity.
Qed.

Lemma Set_add_NoDup x acc : NoDup acc -> NoDup (JS.Set_add acc x).
Proof.
  intros Hnd. unfold JS.Set_add. case_bool_decide as Hx; [assumption|].
  apply NoDup_app. split; [assumption|]. split.
  - intros y Hy Hyx. apply list_elem_of_singleton in Hyx as ->. contradiction.
  - apply NoDup_singleton.
Qed.

Lemma Set_fold_elem l acc c :
  c ∈ fold_left JS.Set_add l acc <-> c ∈ acc \/ c ∈ l.
Proof.
  revert acc. induction l as [|x l IH]; intros acc; simpl.
  - rewrite elem_of_nil. tauto.
  - rewrite IH, Set_add_elem, elem_of_cons. tauto.
Qed.

Lemma Set_fold_NoDup l acc :
  NoDup acc -> NoDup (fold_left JS.Set_add l acc).
Proof.
  revert acc. induction l as [|x l IH]; intros acc Hnd; simpl; [assumption|].
  apply IH. now apply Set_add_NoDup.
Qed.

Lemma Set_fold_order l acc :
  NoDup acc ->
  by_first_occurrence (acc ++ l) (fold_left JS.Set_add l acc).
Proof.
  revert acc. induction l as [|x l IH]; intros acc Hnd; simpl.
  - rewrite app_nil_r. intros i j c d Hi Hj Hij.
    now rewrite (first_index_NoDup acc i c), (first_index_NoDup acc j d).
  - specialize (IH (JS.Set_add acc x) (Set_add_NoDup x acc Hnd)).
    unfold JS.Set_add in *. case_bool_decide as Hx.
    + intros i j c d Hi Hj Hij. apply first_index_seen_again; [assumption|].
      now apply (IH i j).
    + now rewrite <- app_assoc in IH.
Qed.

Lemma Set_from_elem l c : c ∈ JS.Set_from l <-> c ∈ l.
Proof.
  unfold JS.Set_from. rewrite Set_fold_elem, elem_of_nil. tauto.
Qed.

Lemma Set_from_NoDup l : NoDup (JS.Set_from l).
Proof. apply Set_fold_NoDup, NoDup_nil_2. Qed.

Lemma Set_from_order l : by_first_occurrence l (JS.Set_from l).
Proof. apply (Set_fold_order l []), NoDup_nil_2. Qed.

End SetFacts.

(** ** The category options *)

(** C10. The category options are the distinct categories of the working
    list: no option is repeated, a category is an option exactly when some
    event of the working list has it, and the options come in the order of
    their first occurrence in the working list; so every option matches at
    least one event of the working list. *)
Theorem categories_spec (list : list TourList.t) :
  NoDup (categories list)
  /\ (forall c, c ∈ categories list
                <-> exists e, e ∈ list /\ TourList.category e = c)
  /\ by_first_occurrence (map TourList.category list) (categories list)
  /\ (forall c, c ∈ categories list ->
                exists e, e ∈ list /\ matchesCategory c e = true).
Proof.
  assert (Hel : forall c, c ∈ categories list
                <-> exists e, e ∈ list /\ TourList.category e = c).
  { intros c. unfold categories. rewrite Set_from_elem.
    change (map ?f ?l) with (f <$> l). rewrite list_elem_of_fmap.
    split; intros (e & H1 & H2); exists e; auto. }
  split; [apply Set_from_NoDup|]. split; [exact Hel|].
  split; [apply Set_from_order|].
  intros c Hc. apply Hel in Hc as (e & He & <-). exists e. split; [assumption|].
  unfold matchesCategory. destruct (JS.truthy _); [apply String.eqb_refl | reflexivity].
Qed.

Example categories_example :
  categories
    [ TourList.mk "전시" "" "a" "" "" true None;
      TourList.mk "음악" "" "b" "" "" true None;
      TourList.mk "전시" "" "c" "" "" false None;
      TourList.mk "축제" "" "d" "" "" true None;
      TourList.mk "음악" "" "e" "" "" true None ]
  = ["전시"; "음악"; "축제"].
Proof. vm_compute. reflexivity. Qed.

(** ** The page numbers *)

(** The loop pushes the integers from [i] to [hi], in order. *)
Lemma range_loop_seqZ (i hi : Z) (range : list Z) :
  range_loop i hi range = range ++ seqZ i (hi + 1 - i).
Proof.
  funelim (range_loop i hi range).
  - rewrite H. rewrite <- app_assoc. f_equal.
    rewrite (seqZ_cons i) by lia. simpl. do 2 f_equal; lia.
  - rewrite seqZ_nil by lia. now rewrite app_nil_r.
Qed.

Lemma elem_of_window isMobileView currentPage totalPages (p : Z) :
  p ∈ window isMobileView currentPage totalPages
  <-> Z.max 2 (currentPage - delta isMobileView) <= p
      <= Z.min (totalPages - 1) (currentPage + delta isMobileView).
Proof. unfold window. rewrite elem_of_seqZ. lia. Qed.

Lemma getVisiblePages_eq isMobileView currentPage totalPages :
  getVisiblePages isMobileView currentPage totalPages
  = [Page 1]
    ++ (if decide (2 < currentPage - delta isMobileView) then [Dots] else [])
    ++ map Page (window isMobileView currentPage totalPages)
    ++ (if decide (currentPage + delta isMobileView < totalPages - 1)
        then [Dots] else [])
    ++ [Page totalPages].
Proof.
  unfold getVisiblePages, window.
  rewrite range_loop_seqZ. cbn [app].
  destruct (Z.ltb_spec 2 (currentPage - delta isMobileView));
    destruct (Z.ltb_spec (currentPage + delta isMobileView) (totalPages - 1));
    repeat case_decide; try lia;
    now rewrite <- ?app_assoc.
Qed.

Lemma lookup_window isMobileView currentPage totalPages (i : nat) (p : Z) :
  window isMobileView currentPage totalPages !! i = Some p
  <-> p = Z.max 2 (currentPage - delta isMobileView) + Z.of_nat i
      /\ p <= Z.min (totalPages - 1) (currentPage + delta isMobileView).
Proof. unfold window. rewrite lookup_seqZ. lia. Qed.

(** C7. With at most one page [Pagination] renders nothing.  With at least
    two pages and a current page among them, the entries are: page 1; an
    ellipsis when [currentPage - delta > 2]; the pages from
    [max(2, currentPage - delta)] to [min(totalPages - 1, currentPage + delta)]
    in ascending order; an ellipsis when
    [currentPage + delta < totalPages - 1]; the last page.  [delta] is 1 on
    a narrow viewport and 2 otherwise. *)
Theorem visible_pages_spec (isMobileView : bool) (currentPage totalPages : Z) :
  (totalPages <= 1 -> Pagination isMobileView currentPage totalPages = None)
  /\ (2 <= totalPages -> 1 <= currentPage <= totalPages ->
      exists pages,
        Pagination isMobileView currentPage totalPages = Some pages
        /\ head pages = Some (Page 1)
        /\ last pages = Some (Page totalPages)
        /\ pages
           = [Page 1]
             ++ (if decide (currentPage - delta isMobileView > 2)
                 then [Dots] else [])
             ++ map Page (window isMobileView currentPage totalPages)
             ++ (if decide (currentPage + delta isMobileView < totalPages - 1)
                 then [Dots] else [])
             ++ [Page totalPages]
        /\ (forall (i : nat) (p : Z),
              window isMobileView currentPage totalPages !! i = Some p
              <-> p = Z.max 2 (currentPage - delta isMobileView) + Z.of_nat i
                  /\ p <= Z.min (totalPages - 1)
                               (currentPage + delta isMobileView))
        /\ (forall p : Z,
              Z.max 2 (currentPage - delta isMobileView) <= p
              <= Z.min (totalPages - 1) (currentPage + delta isMobileView) ->
              Page p ∈ pages))
  /\ delta true = 1 /\ delta false = 2.
Proof.
  split; [|split; [|split; reflexivity]].
  - intros H. unfold Pagination.
    destruct (Z.leb_spec totalPages 1); [reflexivity | lia].
  - intros Ht Hc. eexists. split.
    { unfold Pagination. destruct (Z.leb_spec totalPages 1); [lia | reflexivity]. }
    rewrite getVisiblePages_eq.
    split; [reflexivity|]. split.
    { rewrite !app_assoc. apply last_snoc. }
    split.
    { repeat case_decide; try lia; reflexivity. }
    split; [apply lookup_window|].
    intros p Hp. apply elem_of_window in Hp.
    rewrite !elem_of_app. right. right. left.
    change (map Page ?l) with (Page <$> l).
    apply list_elem_of_fmap. now exists p.
Qed.

Example Pagination_narrow :
  Pagination true 5 10
  = Some [Page 1; Dots; Page 4; Page 5; Page 6; Dots; Page 10].
Proof. vm_compute. reflexivity. Qed.

Example Pagination_first_page :
  Pagination false 1 3 = Some [Page 1; Page 2; Page 3].
Proof. vm_compute. reflexivity. Qed.

Example Pagination_single : Pagination false 1 1 = None.
Proof. reflexivity. Qed.

(** ** Page resets *)

(** C5. After a render in which the selected category, the fee type or the
    search term differs from its value at the previous render, the effects
    leave the current page at 1. *)
Theorem filter_change_resets_page (prev rendered : State.t) :
  State.filterCategory prev <> State.filterCategory rendered
  \/ State.filterFeeType prev <> State.filterFeeType rendered
  \/ State.searchTerm prev <> State.searchTerm rendered ->
  State.currentPage (commit (Some prev) rendered) = 1.
Proof.
  intros H. unfold commit.
  unfold useEffect at 1. unfold filter_deps.
  case_decide as Hd; [|reflexivity].
  injection Hd as H1 H2 H3. tauto.
Qed.

Lemma filter_change_resets_page_witness :
  State.currentPage
    (step (ChangeSearch "jazz") (handlePageChange 3 State.init)) = 1.
Proof.
  apply (filter_change_resets_page
           (handlePageChange 3 State.init)
           (handle (ChangeSearch "jazz") (handlePageChange 3 State.init))).
  right. right. simpl. discriminate.
Defined.

(** The same, event by event. *)
Lemma step_filter_change (ev : Event) (s : State.t) :
  filter_deps (handle ev s) <> filter_deps s ->
  State.currentPage (step ev s) = 1.
Proof.
  intros H. unfold step, commit. unfold useEffect at 1.
  case_decide as Hd; [congruence | reflexivity].
Qed.

(** C6. After a render in which the view mode differs from the previous
    render's, the effects leave the page size at 9 for the grid and at 10
    for the table, and the current page at 1. *)
Theorem view_mode_change_sets_page_size (prev rendered : State.t) :
  State.viewMode prev <> State.viewMode rendered ->
  State.itemsPerPage (commit (Some prev) rendered)
  = match State.viewMode rendered with grid => 9 | table => 10 end
  /\ State.currentPage (commit (Some prev) rendered) = 1.
Proof.
  intros H. unfold commit, useEffect.
  destruct (decide (State.viewMode prev = State.viewMode rendered));
    [contradiction|].
  case_decide; unfold viewMode_effect;
    destruct (State.viewMode rendered); split; reflexivity.
Qed.

Lemma view_mode_change_sets_page_size_witness :
  State.itemsPerPage (step (ClickViewMode table) (mount 1280)) = 10
  /\ State.currentPage (step (ClickViewMode table) (mount 1280)) = 1.
Proof.
  apply (view_mode_change_sets_page_size
           (mount 1280) (handle (ClickViewMode table) (mount 1280))).
  simpl. discriminate.
Defined.

Example mount_page_size :
  State.itemsPerPage (mount 1280) = 9 /\ State.currentPage (mount 1280) = 1.
Proof. split; reflexivity. Qed.

Example back_to_grid :
  State.itemsPerPage
    (step (ClickViewMode grid) (step (ClickViewMode table) (mount 1280))) = 9.
Proof. reflexivity. Qed.

(** ** fetchEvents: what each outcome leaves behind *)

(** A rejected call empties the list, whatever it held. *)
Lemma fetchEvents_rejected (s : State.t) :
  State.list (fetchEvents Rejected s) = []
  /\ State.error (fetchEvents Rejected s) = Some failure_message
  /\ State.loading (fetchEvents Rejected s) = false.
Proof. repeat split. Qed.

(** An empty or undefined response sets the error and keeps the list. *)
Lemma fetchEvents_empty (o : FetchOutcome) (s : State.t) :
  o = Resolved None \/ o = Resolved (Some []) ->
  State.list (fetchEvents o s) = State.list s
  /\ State.error (fetchEvents o s) = Some empty_message
  /\ State.loading (fetchEvents o s) = false.
Proof. intros [-> | ->]; repeat split. Qed.

(** X24. A non-empty response replaces the list by its normalized records,
    in the order of the response and whatever the list held, clears the
    error and turns the loading flag off. *)
Lemma fetchEvents_loaded (e : GetTourList.t) (response : list GetTourList.t)
    (s : State.t) :
  State.list (fetchEvents (Resolved (Some (e :: response))) s)
  = map normalize (e :: response)
  /\ State.error (fetchEvents (Resolved (Some (e :: response))) s) = None
  /\ State.loading (fetchEvents (Resolved (Some (e :: response))) s) = false.
Proof.
  unfold fetchEvents, fetchEvents_settle.
  destruct (Z.ltb_spec 0 (Z.of_nat (length (e :: response)))) as [_|H];
    [repeat split | simpl in H; lia].
Qed.

(** On the first load the list is still empty when the response is. *)
Lemma fetchEvents_empty_on_mount (o : FetchOutcome) (innerWidth : Z) :
  o = Resolved None \/ o = Resolved (Some []) ->
  State.list (fetchEvents_settle o (mount innerWidth)) = [].
Proof.
  intros [-> | ->]; unfold mount, checkScreenSize;
    destruct (innerWidth <? 768); reflexivity.
Qed.

(** C4, on a list populated by an earlier fetch: an empty response, and an
    undefined one, set the error message and leave the one record in the
    list; a rejected call sets the generic message and empties the list. *)
Theorem fetchEvents_empty_response_keeps_list :
  length (State.list populated) = 1%nat
  /\ State.error (fetchEvents (Resolved (Some [])) populated)
     = Some empty_message
  /\ length (State.list (fetchEvents (Resolved (Some [])) populated)) = 1%nat
  /\ State.error (fetchEvents (Resolved None) populated) = Some empty_message
  /\ length (State.list (fetchEvents (Resolved None) populated)) = 1%nat
  /\ State.error (fetchEvents Rejected populated) = Some failure_message
  /\ length (State.list (fetchEvents Rejected populated)) = 0%nat.
Proof. repeat split. Qed.

(** ** The category colours *)

Lemma colors_values (k v : string) :
  colors !! k = Some v -> JS.truthy v = true.
Proof.
  unfold colors. intros H.
  apply elem_of_list_to_map_2 in H.
  repeat (apply elem_of_cons in H as [H|H]; [injection H as -> ->; reflexivity|]).
  now apply elem_of_nil in H.
Qed.

Lemma colors_fallback : JS.get colors "기타" = JS.str fallback_color.
Proof. vm_compute. reflexivity. Qed.

(** X27. Away from the names every object inherits, the lookup gives a
    colour: the category's own, or the one of "기타" when it has none. *)
Lemma getCategoryColor_not_inherited (category : string) :
  category ∉ JS.Object_prototype ->
  (exists v, getCategoryColor category = JS.str v /\ v <> "")
  /\ (colors !! category = None ->
      getCategoryColor category = JS.str fallback_color).
Proof.
  intros Hni. unfold getCategoryColor. rewrite colors_fallback.
  unfold JS.get at 1. unfold JS.get.
  destruct (colors !! category) as [v|] eqn:Hc.
  - pose proof (colors_values _ _ Hc) as Hv.
    unfold JS.or. cbn [JS.truthy_value]. rewrite Hv.
    split; [|discriminate]. exists v. split; [reflexivity|].
    now apply truthy_true.
  - rewrite bool_decide_eq_false_2 by assumption.
    unfold JS.or. cbn [JS.truthy_value].
    split; [|reflexivity]. eexists. split; [reflexivity | discriminate].
Qed.

(** C9, at the category "constructor": it is none of the six keys, and the
    lookup gives the member inherited from [Object.prototype], which is
    neither a colour string nor the colour of "기타". *)
Theorem getCategoryColor_constructor :
  colors !! "constructor" = None
  /\ getCategoryColor "constructor" = JS.native "constructor"
  /\ (forall v, getCategoryColor "constructor" <> JS.str v)
  /\ getCategoryColor "기타" = JS.str fallback_color
  /\ getCategoryColor "constructor" <> getCategoryColor "기타".
Proof.
  assert (H : getCategoryColor "constructor" = JS.native "constructor")
    by (vm_compute; reflexivity).
  assert (H' : getCategoryColor "기타" = JS.str fallback_color)
    by (vm_compute; reflexivity).
  split; [vm_compute; reflexivity|]. split; [exact H|].
  split; [intros v; rewrite H; discriminate|].
  split; [exact H'|]. rewrite H, H'. discriminate.
Qed.

Example getCategoryColor_music :
  getCategoryColor "음악"
  = JS.str "bg-purple-100 text-purple-800 border-purple-300".
Proof. vm_compute. reflexivity. Qed.

Example getCategoryColor_unknown :
  getCategoryColor "스포츠" = JS.str fallback_color.
Proof. vm_compute. reflexivity. Qed.

(** ** More on the filter *)

Lemma append_empty_r (s : string) : s +:+ "" = s.
Proof.
  induction s as [|c s IH]; [reflexivity|].
  change (String c s +:+ "") with (String c (s +:+ "")). now rewrite IH.
Qed.

Lemma includes_refl (s : string) : JS.includes s s = true.
Proof.
  apply includes_spec. exists "", "".
  change ("" +:+ s +:+ "") with (s +:+ ""). now rewrite append_empty_r.
Qed.

Lemma elem_of_List_filter {A} (f : A -> bool) (l : list A) (x : A) :
  x ∈ List.filter f l <-> x ∈ l /\ f x = true.
Proof. rewrite !list_elem_of_In. apply filter_In. Qed.

Lemma List_filter_filter {A} (f g : A -> bool) (l : list A) :
  List.filter f (List.filter g l) = List.filter (fun x => g x && f x) l.
Proof.
  induction l as [|x l IH]; [reflexivity|].
  cbn [List.filter]. destruct (g x); cbn [andb List.filter]; [|exact IH].
  destruct (f x); now rewrite IH.
Qed.

Section FilterMore.

Variable toLowerCase : string -> string.

Lemma matchesCategory_iff cat e :
  matchesCategory cat e = true <-> cat = "" \/ TourList.category e = cat.
Proof.
  unfold matchesCategory. destruct (JS.truthy cat) eqn:Ht.
  - apply truthy_true in Ht. rewrite String.eqb_eq. tauto.
  - assert (cat = "") as ->.
    { destruct (decide (cat = "")) as [|Hne]; [assumption|].
      apply truthy_true in Hne. congruence. }
    tauto.
Qed.

Lemma matchesFeeType_iff ft e :
  matchesFeeType ft e = true
  <-> ft = ""
      \/ (ft = "free" /\ TourList.is_free e = true)
      \/ (ft <> "" /\ ft <> "free" /\ TourList.is_free e = false).
Proof.
  unfold matchesFeeType. destruct (JS.truthy ft) eqn:Ht.
  - apply truthy_true in Ht.
    destruct (String.eqb_spec ft "free") as [->|Hf].
    + split; [intros H; right; left; now split|].
      intros [H|[[_ H]|[_ [H _]]]]; congruence.
    + rewrite negb_true_iff. split; [intros H; right; right; now repeat split|].
      intros [H|[[H _]|[_ [_ H]]]]; congruence.
  - assert (ft = "") as ->.
    { destruct (decide (ft = "")) as [|Hne]; [assumption|].
      apply truthy_true in Hne. congruence. }
    tauto.
Qed.

Lemma matchesSearch_iff term e :
  matchesSearch toLowerCase term e = true
  <-> term = ""
      \/ exists a b,
           toLowerCase (TourList.event_name e) = a +:+ toLowerCase term +:+ b.
Proof.
  unfold matchesSearch. destruct (JS.truthy term) eqn:Ht.
  - apply truthy_true in Ht. rewrite includes_spec. tauto.
  - assert (term = "") as ->.
    { destruct (decide (term = "")) as [|Hne]; [assumption|].
      apply truthy_true in Hne. congruence. }
    tauto.
Qed.

Lemma elem_of_filteredList (list : list TourList.t)
    (filterCategory filterFeeType searchTerm : string) (e : TourList.t) :
  e ∈ filteredList toLowerCase list filterCategory filterFeeType searchTerm
  <-> e ∈ list
      /\ matchesCategory filterCategory e = true
      /\ matchesFeeType filterFeeType e = true
      /\ matchesSearch toLowerCase searchTerm e = true.
Proof.
  unfold filteredList. rewrite elem_of_List_filter, !andb_true_iff. tauto.
Qed.

(** X1. An event is in the filtered list exactly when it is in the working
    list and passes the three criteria; any fee type other than "" and
    "free" keeps the events that are not free. *)
Theorem filteredList_elem (list : list TourList.t)
    (filterCategory filterFeeType searchTerm : string) (e : TourList.t) :
  e ∈ filteredList toLowerCase list filterCategory filterFeeType searchTerm
  <-> e ∈ list
      /\ (filterCategory = "" \/ TourList.category e = filterCategory)
      /\ (filterFeeType = ""
          \/ (filterFeeType = "free" /\ TourList.is_free e = true)
          \/ (filterFeeType <> "" /\ filterFeeType <> "free"
              /\ TourList.is_free e = false))
      /\ (searchTerm = ""
          \/ exists a b,
               toLowerCase (TourList.event_name e)
               = a +:+ toLowerCase searchTerm +:+ b).
Proof.
  rewrite elem_of_filteredList.
  rewrite matchesCategory_iff, matchesFeeType_iff, matchesSearch_iff. tauto.
Qed.

(** X2. Applying the three filters one after the other gives the same list
    as applying them together. *)
Theorem filteredList_one_by_one (list : list TourList.t)
    (filterCategory filterFeeType searchTerm : string) :
  filteredList toLowerCase
    (filteredList toLowerCase
       (filteredList toLowerCase list filterCategory "" "")
       "" filterFeeType "")
    "" "" searchTerm
  = filteredList toLowerCase list filterCategory filterFeeType searchTerm.
Proof.
  unfold filteredList. rewrite !List_filter_filter.
  apply filter_ext. intros e.
  change (matchesCategory "" e) with true.
  change (matchesFeeType "" e) with true.
  change (matchesSearch toLowerCase "" e) with true.
  destruct (matchesCategory filterCategory e),
           (matchesFeeType filterFeeType e),
           (matchesSearch toLowerCase searchTerm e); reflexivity.
Qed.

(** X3. Under any category and search term, the "free" and the "paid"
    result together have as many events as the result without a fee
    type, and no event is in both. *)
Theorem free_paid_split (list : list TourList.t)
    (filterCategory searchTerm : string) :
  (length (filteredList toLowerCase list filterCategory "free" searchTerm)
   + length (filteredList toLowerCase list filterCategory "paid" searchTerm)
   = length (filteredList toLowerCase list filterCategory "" searchTerm))%nat
  /\ (forall e,
        e ∈ filteredList toLowerCase list filterCategory "free" searchTerm ->
        e ∉ filteredList toLowerCase list filterCategory "paid" searchTerm).
Proof.
  split.
  - unfold filteredList. induction list as [|e l IH]; [reflexivity|].
    cbn [List.filter].
    change (matchesFeeType "free" e) with (TourList.is_free e).
    change (matchesFeeType "paid" e) with (negb (TourList.is_free e)).
    change (matchesFeeType "" e) with true.
    destruct (matchesCategory filterCategory e),
             (matchesSearch toLowerCase searchTerm e),
             (TourList.is_free e);
      cbn [andb negb length]; lia.
  - intros e Hf Hp.
    apply elem_of_filteredList in Hf as (_ & _ & Hf & _).
    apply elem_of_filteredList in Hp as (_ & _ & Hp & _).
    apply matchesFeeType_free in Hf. apply matchesFeeType_paid in Hp.
    congruence.
Qed.

(** X4. Two non-empty search terms with the same lower-case form give the
    same filtered list. *)
Theorem search_ignores_case (list : list TourList.t)
    (filterCategory filterFeeType term1 term2 : string) :
  term1 <> "" -> term2 <> "" ->
  toLowerCase term1 = toLowerCase term2 ->
  filteredList toLowerCase list filterCategory filterFeeType term1
  = filteredList toLowerCase list filterCategory filterFeeType term2.
Proof.
  intros H1 H2 Heq. unfold filteredList. apply filter_ext. intros e.
  f_equal. unfold matchesSearch.
  apply truthy_true in H1, H2. now rewrite H1, H2, Heq.
Qed.

(** X5. Searching for the full name of an event of the working list, with
    no other filter, finds that event. *)
Theorem search_by_full_name (list : list TourList.t) (e : TourList.t) :
  e ∈ list ->
  e ∈ filteredList toLowerCase list "" "" (TourList.event_name e).
Proof.
  intros He. apply elem_of_filteredList. repeat split; try assumption.
  unfold matchesSearch. destruct (JS.truthy _); [apply includes_refl | reflexivity].
Qed.

End FilterMore.

Lemma search_ignores_case_witness :
  filteredList JS.toLowerCase_ascii sample_list "" "" "JAZZ"
  = filteredList JS.toLowerCase_ascii sample_list "" "" "jazz".
Proof.
  apply (search_ignores_case JS.toLowerCase_ascii sample_list "" "" "JAZZ" "jazz");
    [discriminate | discriminate | reflexivity].
Defined.

Lemma search_by_full_name_witness :
  TourList.mk "음악" "강남구" "Piano Recital" "" "" true (Some "")
  ∈ filteredList JS.toLowerCase_ascii sample_list "" "" "Piano Recital".
Proof.
  apply (search_by_full_name JS.toLowerCase_ascii sample_list
           (TourList.mk "음악" "강남구" "Piano Recital" "" "" true (Some ""))).
  unfold sample_list. do 3 apply list_elem_of_further. apply list_elem_of_here.
Defined.

(** ** More on paging *)

Section PagingMore.

Context {A : Type}.
Implicit Types (l : list A) (size p : Z).

Lemma slice_sublist l (a b : Z) : sublist (JS.slice l a b) l.
Proof.
  unfold JS.slice. etransitivity; [apply sublist_take | apply sublist_drop].
Qed.

(** X6. Whatever the page number and the page size, the page slice is a
    subsequence of the filtered list. *)
Theorem paginatedList_sublist (filteredList : list A)
    (currentPage itemsPerPage : Z) :
  sublist (paginatedList filteredList currentPage itemsPerPage) filteredList.
Proof. apply slice_sublist. Qed.

Lemma paginatedList_length l p size :
  0 < size -> 1 <= p ->
  Z.of_nat (length (paginatedList l p size))
  = Z.min size (Z.max 0 (Z.of_nat (length l) - (p - 1) * size)).
Proof.
  intros Hs Hp. rewrite paginatedList_take_drop by lia.
  rewrite length_take, length_drop.
  assert (0 <= (p - 1) * size) by (apply Z.mul_nonneg_nonneg; lia).
  lia.
Qed.

(** X7. For a positive page size, every page before the last is full, the
    last page holds between one record and a full page, and the pages
    after it are empty. *)
Theorem page_lengths (filteredList : list A) (itemsPerPage p : Z) :
  0 < itemsPerPage -> 1 <= p ->
  (p < totalPages filteredList itemsPerPage ->
   Z.of_nat (length (paginatedList filteredList p itemsPerPage)) = itemsPerPage)
  /\ (p = totalPages filteredList itemsPerPage ->
      1 <= Z.of_nat (length (paginatedList filteredList p itemsPerPage))
        <= itemsPerPage)
  /\ (totalPages filteredList itemsPerPage < p ->
      paginatedList filteredList p itemsPerPage = []).
Proof.
  intros Hs Hp.
  pose proof (paginatedList_length filteredList p itemsPerPage Hs Hp) as Hlen.
  pose proof (Math_ceil_div_spec (Z.of_nat (length filteredList)) itemsPerPage Hs)
    as Hc.
  fold (totalPages filteredList itemsPerPage) in Hc.
  set (tp := totalPages filteredList itemsPerPage) in *.
  set (n := Z.of_nat (length filteredList)) in *.
  repeat split.
  - intros Hlt. rewrite Hlen. nia.
  - rewrite Hlen. subst p. nia.
  - rewrite Hlen. subst p. nia.
  - intros Hgt. apply length_zero_iff_nil.
    assert (Z.of_nat (length (paginatedList filteredList p itemsPerPage)) = 0)
      by (rewrite Hlen; nia).
    lia.
Qed.

(** X8. For a positive page size there is no page exactly when the
    filtered list is empty, and [Pagination] renders exactly when the
    filtered list is longer than one page. *)
Theorem pagination_shown (filteredList : list A) (itemsPerPage : Z)
    (isMobileView : bool) (currentPage : Z) :
  0 < itemsPerPage ->
  (totalPages filteredList itemsPerPage = 0 <-> filteredList = [])
  /\ (is_Some (Pagination isMobileView currentPage
                 (totalPages filteredList itemsPerPage))
      <-> itemsPerPage < Z.of_nat (length filteredList)).
Proof.
  intros Hs.
  pose proof (Math_ceil_div_spec (Z.of_nat (length filteredList)) itemsPerPage Hs)
    as Hc.
  fold (totalPages filteredList itemsPerPage) in Hc.
  set (tp := totalPages filteredList itemsPerPage) in *.
  split.
  - rewrite <- length_zero_iff_nil. split; intros H; [|rewrite H in Hc]; nia.
  - unfold Pagination. destruct (Z.leb_spec tp 1) as [Hle|Hgt].
    + split; [intros [x Hx]; discriminate | intros H; nia].
    + split; [intros _; nia | intros _; eexists; reflexivity].
Qed.

(** X9. On a page between 1 and the page count, the "a - b" label counts
    the records of the page slice: [b - a + 1] is its length, and
    [1 <= a <= b <= filteredList.length]. *)
Theorem label_counts_page (filteredList : list A)
    (currentPage itemsPerPage : Z) :
  0 < itemsPerPage ->
  1 <= currentPage <= totalPages filteredList itemsPerPage ->
  label_last filteredList currentPage itemsPerPage
  - label_first currentPage itemsPerPage + 1
  = Z.of_nat (length (paginatedList filteredList currentPage itemsPerPage))
  /\ 1 <= label_first currentPage itemsPerPage
       <= label_last filteredList currentPage itemsPerPage
  /\ label_last filteredList currentPage itemsPerPage
     <= Z.of_nat (length filteredList).
Proof.
  intros Hs [Hp1 Hp2].
  rewrite (paginatedList_length filteredList currentPage itemsPerPage Hs Hp1).
  pose proof (Math_ceil_div_spec (Z.of_nat (length filteredList)) itemsPerPage Hs)
    as Hc.
  fold (totalPages filteredList itemsPerPage) in Hc.
  set (tp := totalPages filteredList itemsPerPage) in *.
  unfold label_last, label_first, startIndex.
  set (n := Z.of_nat (length filteredList)) in *.
  assert (0 <= (currentPage - 1) * itemsPerPage)
    by (apply Z.mul_nonneg_nonneg; lia).
  assert ((currentPage - 1) * itemsPerPage < n) by nia.
  lia.
Qed.

End PagingMore.

Lemma page_lengths_witness :
  Z.of_nat (length (paginatedList (seq 0 25) 2 9)) = 9.
Proof.
  destruct (page_lengths (seq 0 25) 9 2 ltac:(lia) ltac:(lia)) as (H & _ & _).
  apply H. vm_compute. reflexivity.
Defined.

Lemma pagination_shown_witness :
  is_Some (Pagination false 1 (totalPages (seq 0 25) 9))
  <-> 9 < Z.of_nat (length (seq 0 25)).
Proof.
  destruct (pagination_shown (seq 0 25) 9 false 1 ltac:(lia)) as (_ & H).
  exact H.
Defined.

Lemma label_counts_page_witness :
  label_last (seq 0 25) 3 9 - label_first 3 9 + 1
  = Z.of_nat (length (paginatedList (seq 0 25) 3 9)).
Proof.
  destruct (label_counts_page (seq 0 25) 3 9 ltac:(lia)) as (H & _).
  - vm_compute. split; discriminate.
  - exact H.
Defined.

(** ** More on the page numbers *)

Lemma seqZ_sorted (k : nat) (m : Z) : StronglySorted Z.lt (seqZ m (Z.of_nat k)).
Proof.
  revert m. induction k as [|k IH]; intros m; [constructor|].
  rewrite seqZ_cons by lia. constructor.
  - replace (Z.pred (Z.of_nat (S k))) with (Z.of_nat k) by lia. apply IH.
  - apply Forall_forall. intros x Hx. apply elem_of_seqZ in Hx. lia.
Qed.

Lemma window_sorted isMobileView currentPage totalPages :
  StronglySorted Z.lt (window isMobileView currentPage totalPages).
Proof.
  unfold window.
  match goal with |- context [seqZ ?m ?n] =>
    destruct (Z_le_gt_dec n 0) as [Hn|Hn];
    [rewrite seqZ_nil by lia; constructor
    |rewrite <- (Z2Nat.id n) by lia; apply seqZ_sorted]
  end.
Qed.

Lemma omap_page_number_Page (l : list Z) : omap page_number (map Page l) = l.
Proof. induction l as [|x l IH]; [reflexivity|]. cbn. now rewrite IH. Qed.

(** The numbered buttons: page 1, the window, the last page. *)
Lemma page_numbers_eq isMobileView currentPage totalPages :
  omap page_number (getVisiblePages isMobileView currentPage totalPages)
  = [1] ++ window isMobileView currentPage totalPages ++ [totalPages].
Proof.
  rewrite getVisiblePages_eq, !omap_app, omap_page_number_Page.
  repeat case_decide; reflexivity.
Qed.

(** X10. With at least two pages and the current page among them, the
    current page has a button. *)
Theorem current_page_is_shown (isMobileView : bool)
    (currentPage totalPages : Z) :
  2 <= totalPages -> 1 <= currentPage <= totalPages ->
  Page currentPage ∈ getVisiblePages isMobileView currentPage totalPages.
Proof.
  intros Ht Hc. rewrite getVisiblePages_eq, !elem_of_app.
  destruct (decide (currentPage = 1)) as [->|H1];
    [left; apply list_elem_of_here|].
  destruct (decide (currentPage = totalPages)) as [->|H2];
    [do 4 right; apply list_elem_of_here|].
  right. right. left.
  change (map Page ?l) with (Page <$> l). apply list_elem_of_fmap.
  exists currentPage. split; [reflexivity|].
  apply elem_of_window. destruct isMobileView; unfold delta; lia.
Qed.

Lemma current_page_is_shown_witness :
  Page 7 ∈ getVisiblePages true 7 12.
Proof. apply (current_page_is_shown true 7 12); lia. Defined.

(** X11. With at least two pages, the numbered buttons are strictly
    increasing, so no page has two buttons, and each is a page between 1
    and the page count. *)
Theorem page_numbers_increasing (isMobileView : bool)
    (currentPage totalPages : Z) :
  2 <= totalPages ->
  StronglySorted Z.lt
    (omap page_number (getVisiblePages isMobileView currentPage totalPages))
  /\ Forall (fun p => 1 <= p <= totalPages)
       (omap page_number (getVisiblePages isMobileView currentPage totalPages)).
Proof.
  intros Ht. rewrite page_numbers_eq. split.
  - apply StronglySorted_app_2.
    + intros x y Hx Hy. apply list_elem_of_singleton in Hx as ->.
      apply elem_of_app in Hy as [Hy|Hy].
      * apply elem_of_window in Hy. lia.
      * apply list_elem_of_singleton in Hy as ->. lia.
    + repeat constructor.
    + apply StronglySorted_app_2.
      * intros x y Hx Hy. apply elem_of_window in Hx.
        apply list_elem_of_singleton in Hy as ->. lia.
      * apply window_sorted.
      * repeat constructor.
  - apply Forall_forall. intros p Hp.
    apply elem_of_app in Hp as [Hp|Hp];
      [apply list_elem_of_singleton in Hp as ->; lia|].
    apply elem_of_app in Hp as [Hp|Hp].
    + apply elem_of_window in Hp. lia.
    + apply list_elem_of_singleton in Hp as ->. lia.
Qed.

Lemma page_numbers_increasing_witness :
  StronglySorted Z.lt (omap page_number (getVisiblePages false 5 10)).
Proof. apply (page_numbers_increasing false 5 10). lia. Defined.

(** X12. [getVisiblePages] never returns more than [2 * delta + 5]
    entries: 7 on a narrow viewport and 9 otherwise, however many pages
    there are. *)
Theorem visible_pages_bounded (isMobileView : bool)
    (currentPage totalPages : Z) :
  Z.of_nat (length (getVisiblePages isMobileView currentPage totalPages))
  <= 2 * delta isMobileView + 5.
Proof.
  rewrite getVisiblePages_eq. rewrite !length_app, length_map.
  unfold window. rewrite length_seqZ.
  destruct isMobileView; unfold delta;
    repeat case_decide; cbn [length]; lia.
Qed.

(** X13. With at least two pages and the current page among them, an
    ellipsis is shown exactly when some page between 1 and the page count
    has no button. *)
Theorem dots_iff_hidden_page (isMobileView : bool)
    (currentPage totalPages : Z) :
  2 <= totalPages -> 1 <= currentPage <= totalPages ->
  Dots ∈ getVisiblePages isMobileView currentPage totalPages
  <-> exists p, 1 <= p <= totalPages
                /\ Page p ∉ getVisiblePages isMobileView currentPage totalPages.
Proof.
  intros Ht Hc.
  assert (Hpage : forall p,
    Page p ∈ getVisiblePages isMobileView currentPage totalPages
    <-> p = 1 \/ p ∈ window isMobileView currentPage totalPages
        \/ p = totalPages).
  { intros p. rewrite getVisiblePages_eq, !elem_of_app.
    change (map Page ?l) with (Page <$> l). rewrite list_elem_of_fmap.
    rewrite !list_elem_of_singleton.
    split.
    - intros [H|[H|[(q & Hq & Hw)|[H|H]]]].
      + left. congruence.
      + case_decide; [apply list_elem_of_singleton in H; discriminate
                     |now apply elem_of_nil in H].
      + right. left. congruence.
      + case_decide; [apply list_elem_of_singleton in H; discriminate
                     |now apply elem_of_nil in H].
      + right. right. congruence.
    - intros [->|[H| ->]]; [now left | right; right; left; now exists p
                           | do 4 right; reflexivity]. }
  assert (Hdots :
    Dots ∈ getVisiblePages isMobileView currentPage totalPages
    <-> currentPage - delta isMobileView > 2
        \/ currentPage + delta isMobileView < totalPages - 1).
  { rewrite getVisiblePages_eq, !elem_of_app.
    change (map Page ?l) with (Page <$> l). rewrite list_elem_of_fmap.
    rewrite !list_elem_of_singleton.
    split.
    - intros [H|[H|[(q & Hq & Hw)|[H|H]]]]; try discriminate.
      + case_decide; [lia | now apply elem_of_nil in H].
      + case_decide; [lia | now apply elem_of_nil in H].
    - intros [H|H].
      + right. left. rewrite decide_True by lia. apply list_elem_of_here.
      + do 3 right. left. rewrite decide_True by lia.
        apply list_elem_of_here. }
  rewrite Hdots.
  assert (Hd : 1 <= delta isMobileView) by (destruct isMobileView; unfold delta; lia).
  split.
  - intros [H|H].
    + exists 2. split; [lia|]. rewrite Hpage, elem_of_window. lia.
    + exists (totalPages - 1). split; [lia|]. rewrite Hpage, elem_of_window. lia.
  - intros (p & Hp & Hnot). rewrite Hpage, elem_of_window in Hnot. lia.
Qed.

Lemma dots_iff_hidden_page_witness :
  Dots ∈ getVisiblePages false 5 10
  <-> exists p, 1 <= p <= 10 /\ Page p ∉ getVisiblePages false 5 10.
Proof. apply (dots_iff_hidden_page false 5 10); lia. Defined.

(** ** The component as a state machine *)

(** The effects only write the current page and the page size. *)
Lemma commit_frame (prev : option State.t) (rendered : State.t) :
  State.list (commit prev rendered) = State.list rendered
  /\ State.loading (commit prev rendered) = State.loading rendered
  /\ State.error (commit prev rendered) = State.error rendered
  /\ filter_deps (commit prev rendered) = filter_deps rendered
  /\ State.selectedEvent (commit prev rendered) = State.selectedEvent rendered
  /\ State.isMobileView (commit prev rendered) = State.isMobileView rendered
  /\ State.viewMode (commit prev rendered) = State.viewMode rendered.
Proof.
  unfold commit, useEffect, viewMode_effect, filter_effect.
  destruct prev as [p|];
    [destruct (decide (State.viewMode p = State.viewMode rendered)),
              (decide (filter_deps p = filter_deps rendered))|];
    destruct (State.viewMode rendered) eqn:Hvm; repeat split; exact Hvm.
Qed.

Lemma commit_filters (prev : option State.t) (rendered : State.t) :
  State.filterCategory (commit prev rendered) = State.filterCategory rendered
  /\ State.filterFeeType (commit prev rendered) = State.filterFeeType rendered
  /\ State.searchTerm (commit prev rendered) = State.searchTerm rendered.
Proof.
  destruct (commit_frame prev rendered) as (_&_&_&Hf&_).
  unfold filter_deps in Hf. now injection Hf.
Qed.

(** No handler writes the page size. *)
Lemma handle_itemsPerPage (ev : Event) (s : State.t) :
  State.itemsPerPage (handle ev s) = State.itemsPerPage s.
Proof.
  destruct ev as [| | | | |w| | | |k| |o]; try reflexivity.
  - unfold handle, checkScreenSize. destruct (w <? 768); reflexivity.
  - unfold handle, handleEscKey. destruct (_ && _); reflexivity.
  - unfold handle, fetchEvents_settle.
    destruct o as [[r|]|]; [destruct (0 <? _)| |]; reflexivity.
Qed.

(** The page after the effects: 1 when an effect ran, else as rendered. *)
Lemma commit_currentPage (prev rendered : State.t) :
  State.currentPage (commit (Some prev) rendered)
  = if bool_decide (State.viewMode prev = State.viewMode rendered
                    /\ filter_deps prev = filter_deps rendered)
    then State.currentPage rendered else 1.
Proof.
  unfold commit, useEffect, viewMode_effect, filter_effect.
  case_bool_decide as H; repeat case_decide;
    destruct (State.viewMode rendered); try reflexivity; tauto.
Qed.

Lemma commit_itemsPerPage (prev rendered : State.t) :
  State.itemsPerPage (commit (Some prev) rendered)
  = if decide (State.viewMode prev = State.viewMode rendered)
    then State.itemsPerPage rendered
    else match State.viewMode rendered with grid => 9 | table => 10 end.
Proof.
  unfold commit, useEffect, viewMode_effect, filter_effect.
  repeat case_decide; destruct (State.viewMode rendered); reflexivity.
Qed.

Lemma step_page_size (ev : Event) (s : State.t) :
  State.itemsPerPage s
  = match State.viewMode s with grid => 9 | table => 10 end ->
  State.itemsPerPage (step ev s)
  = match State.viewMode (step ev s) with grid => 9 | table => 10 end.
Proof.
  intros IH. unfold step.
  destruct (commit_frame (Some s) (handle ev s)) as (_&_&_&_&_&_&->).
  rewrite commit_itemsPerPage. case_decide as Hv; [|reflexivity].
  now rewrite handle_itemsPerPage, IH, Hv.
Qed.

(** An event that leaves the view mode and the filter values alone runs no
    effect. *)
Lemma step_quiet (ev : Event) (s : State.t) :
  State.viewMode (handle ev s) = State.viewMode s ->
  filter_deps (handle ev s) = filter_deps s ->
  step ev s = handle ev s.
Proof.
  intros Hv Hf. unfold step, commit, useEffect.
  now rewrite !decide_True by congruence.
Qed.

(** X14. After every event the effects have settled: rendering the state
    they leave runs no effect again. *)
Theorem commit_settles (prev rendered : State.t) :
  commit (Some rendered) (commit (Some prev) rendered)
  = commit (Some prev) rendered.
Proof.
  destruct (commit_frame (Some prev) rendered) as (_&_&_&Hf&_&_&Hv).
  unfold commit at 1. unfold useEffect.
  rewrite Hf, Hv. now rewrite !decide_True by reflexivity.
Qed.

(** X15. Clicking an item selects it, and closing the modal by its buttons
    or by the Escape key restores the state from before the click; a key
    other than Escape changes nothing. *)
Theorem modal_round_trip (s : State.t) (item : TourList.t) (key : string) :
  State.selectedEvent s = None ->
  State.selectedEvent (step (ClickItem item) s) = Some item
  /\ step ClickClose (step (ClickItem item) s) = s
  /\ step (KeyDown "Escape") (step (ClickItem item) s) = s
  /\ (key <> "Escape" ->
      step (KeyDown key) (step (ClickItem item) s) = step (ClickItem item) s).
Proof.
  intros Hsel.
  assert (Hopen : step (ClickItem item) s = handleEventClick item s)
    by (now apply step_quiet).
  rewrite Hopen. repeat split.
  - rewrite step_quiet by reflexivity. destruct s. cbn in *. now subst.
  - rewrite step_quiet by reflexivity. destruct s. cbn in *. now subst.
  - intros Hk.
    assert (Hh : handle (KeyDown key) (handleEventClick item s)
                 = handleEventClick item s).
    { unfold handle, handleEscKey.
      destruct (String.eqb_spec key "Escape"); [contradiction | reflexivity]. }
    rewrite step_quiet; rewrite Hh; reflexivity.
Qed.

Lemma modal_round_trip_witness :
  step ClickClose (step (ClickItem (normalize sample_raw)) populated) = populated.
Proof.
  destruct (modal_round_trip populated (normalize sample_raw) "Enter" eq_refl)
    as (_ & H & _).
  exact H.
Defined.

(** X16. A resize below 768 pixels turns the narrow view on and forces the
    grid, with 9 records a page and page 1 if the table was shown; a resize
    to 768 pixels or more turns the narrow view off and keeps the view
    mode. *)
Theorem resize_effect (innerWidth : Z) (s : State.t) :
  (innerWidth < 768 ->
   State.isMobileView (step (Resize innerWidth) s) = true
   /\ State.viewMode (step (Resize innerWidth) s) = grid
   /\ layout (step (Resize innerWidth) s) = GridView
   /\ (State.viewMode s = table ->
       State.itemsPerPage (step (Resize innerWidth) s) = 9
       /\ State.currentPage (step (Resize innerWidth) s) = 1))
  /\ (768 <= innerWidth ->
      State.isMobileView (step (Resize innerWidth) s) = false
      /\ State.viewMode (step (Resize innerWidth) s) = State.viewMode s
      /\ State.itemsPerPage (step (Resize innerWidth) s) = State.itemsPerPage s
      /\ State.currentPage (step (Resize innerWidth) s) = State.currentPage s).
Proof.
  unfold layout, step.
  destruct (commit_frame (Some s) (handle (Resize innerWidth) s))
    as (_&_&_&_&_&Hm&Hv).
  rewrite Hm, Hv, commit_itemsPerPage, commit_currentPage.
  unfold handle, checkScreenSize. split; intros Hw.
  - destruct (Z.ltb_spec innerWidth 768); [|lia]. cbn.
    repeat split; try reflexivity.
    + rewrite decide_False by congruence. reflexivity.
    + rewrite bool_decide_eq_false_2; [reflexivity|].
      intros [? _]. congruence.
  - destruct (Z.ltb_spec innerWidth 768); [lia|]. cbn.
    rewrite decide_True by reflexivity.
    rewrite bool_decide_eq_true_2 by (split; reflexivity).
    repeat split.
Qed.

Section Reachable.

Variable toLowerCase : string -> string.

(** X17. The reset button shows the whole working list again, and the
    current page is 1 afterwards unless all three filter values were
    already empty, in which case nothing changes. *)
Theorem reset_shows_all (s : State.t) :
  rendered_filteredList toLowerCase (step ClickReset s) = State.list s
  /\ (filter_deps s <> ("", "", "") ->
      State.currentPage (step ClickReset s) = 1)
  /\ (filter_deps s = ("", "", "") -> step ClickReset s = s).
Proof.
  split; [|split].
  - unfold rendered_filteredList, step.
    destruct (commit_filters (Some s) (handle ClickReset s)) as (-> & -> & ->).
    destruct (commit_frame (Some s) (handle ClickReset s)) as (-> & _).
    cbn. apply List_filter_all. reflexivity.
  - intros Hne. unfold step. rewrite commit_currentPage.
    rewrite bool_decide_eq_false_2; [reflexivity|].
    intros [_ Hf]. apply Hne. rewrite Hf. reflexivity.
  - intros Hf. rewrite step_quiet; [| reflexivity | now rewrite Hf].
    destruct s. unfold filter_deps in Hf. cbn in *.
    injection Hf as -> -> ->. reflexivity.
Qed.

Lemma reachable_page_size (s : State.t) :
  reachable toLowerCase s ->
  State.itemsPerPage s
  = match State.viewMode s with grid => 9 | table => 10 end.
Proof.
  induction 1 as [w|ev s _ IH _].
  - unfold mount, checkScreenSize. destruct (w <? 768); reflexivity.
  - now apply step_page_size.
Qed.

Lemma reachable_narrow_grid (s : State.t) :
  reachable toLowerCase s ->
  State.isMobileView s = true -> State.viewMode s = grid.
Proof.
  induction 1 as [w|ev s _ IH Hen].
  - unfold mount, checkScreenSize. destruct (w <? 768); reflexivity.
  - unfold step.
    destruct (commit_frame (Some s) (handle ev s)) as (_&_&_&_&_&->&->).
    destruct ev as [| | | |m|w| | | |k| |o]; try exact IH.
    + cbn in Hen. apply negb_true_iff in Hen. cbn. congruence.
    + unfold handle, checkScreenSize. destruct (w <? 768); cbn;
        [reflexivity | discriminate].
    + unfold handle, handleEscKey. destruct (_ && _); exact IH.
    + unfold handle, fetchEvents_settle.
      destruct o as [[r|]|]; [destruct (0 <? _)| |]; exact IH.
Qed.

(** X18. In every state the component reaches, the page size is 9 in grid
    mode and 10 in table mode; so it is positive. *)
Theorem page_size_follows_view_mode (s : State.t) :
  reachable toLowerCase s ->
  State.itemsPerPage s
  = match State.viewMode s with grid => 9 | table => 10 end
  /\ 0 < State.itemsPerPage s.
Proof.
  intros Hr. pose proof (reachable_page_size s Hr) as H.
  split; [exact H|]. rewrite H. destruct (State.viewMode s); lia.
Qed.

(** X19. In every state the component reaches, a narrow viewport goes with
    grid mode, and the layout on screen is the grid exactly when the page
    size is 9. *)
Theorem layout_matches_page_size (s : State.t) :
  reachable toLowerCase s ->
  (State.isMobileView s = true -> State.viewMode s = grid)
  /\ (layout s = GridView <-> State.itemsPerPage s = 9).
Proof.
  intros Hr. pose proof (reachable_page_size s Hr) as Hp.
  pose proof (reachable_narrow_grid s Hr) as Hn.
  split; [exact Hn|]. unfold layout. rewrite Hp.
  destruct (State.viewMode s) eqn:Hv, (State.isMobileView s) eqn:Hm; cbn;
    try (split; [reflexivity | reflexivity]);
    try (split; discriminate).
  specialize (Hn eq_refl). discriminate.
Qed.

Lemma page_targets_positive isMobileView currentPage totalPages (p : Z) :
  1 <= currentPage -> 1 < totalPages ->
  p ∈ page_targets isMobileView currentPage totalPages -> 1 <= p.
Proof.
  intros Hc Ht. unfold page_targets. rewrite page_numbers_eq, !elem_of_app.
  intros [H|[[H|[H|H]]|H]].
  - case_bool_decide; [now apply elem_of_nil in H|].
    apply list_elem_of_singleton in H. lia.
  - apply list_elem_of_singleton in H. lia.
  - apply elem_of_window in H. lia.
  - apply list_elem_of_singleton in H. lia.
  - case_bool_decide; [now apply elem_of_nil in H|].
    apply list_elem_of_singleton in H. lia.
Qed.

(** X20. In every state the component reaches, the current page is at
    least 1. *)
Theorem current_page_positive (s : State.t) :
  reachable toLowerCase s -> 1 <= State.currentPage s.
Proof.
  induction 1 as [w|ev s _ IH Hen].
  - unfold mount, checkScreenSize. destruct (w <? 768); cbn; lia.
  - unfold step. rewrite commit_currentPage.
    case_bool_decide; [|lia].
    destruct ev as [| | | |m|w|p| | |k| |o]; try exact IH.
    + unfold handle, checkScreenSize. destruct (w <? 768); exact IH.
    + cbn in Hen. apply andb_prop in Hen as [_ Hen].
      unfold Pagination in Hen.
      destruct (Z.leb_spec (rendered_totalPages toLowerCase s) 1) as [|Ht];
        [discriminate|].
      apply bool_decide_eq_true_1 in Hen.
      cbn. eapply page_targets_positive; eassumption.
    + unfold handle, handleEscKey. destruct (_ && _); exact IH.
    + unfold handle, fetchEvents_settle.
      destruct o as [[r|]|]; [destruct (0 <? _)| |]; exact IH.
Qed.

(** X21. In every state the component reaches, the fee type is "", "free"
    or "paid". *)
Theorem fee_type_is_an_option (s : State.t) :
  reachable toLowerCase s ->
  State.filterFeeType s ∈ [""; "free"; "paid"].
Proof.
  induction 1 as [w|ev s _ IH Hen].
  - unfold mount, checkScreenSize. destruct (w <? 768); cbn;
      apply list_elem_of_here.
  - unfold step.
    destruct (commit_filters (Some s) (handle ev s)) as (_ & -> & _).
    destruct ev as [|v| | |m|w|p| | |k| |o]; try exact IH.
    + cbn in Hen. apply bool_decide_eq_true_1 in Hen. exact Hen.
    + cbn. apply list_elem_of_here.
    + unfold handle, checkScreenSize. destruct (w <? 768); exact IH.
    + unfold handle, handleEscKey. destruct (_ && _); exact IH.
    + unfold handle, fetchEvents_settle.
      destruct o as [[r|]|]; [destruct (0 <? _)| |]; exact IH.
Qed.

End Reachable.

(** A wide screen, the first response, then the table. *)
Definition table_view : State.t :=
  step (ClickViewMode table)
    (step (Settled (Resolved (Some [sample_raw]))) (mount 1280)).

Lemma table_view_reachable : reachable JS.toLowerCase_ascii table_view.
Proof. repeat (apply reachable_step || apply reachable_mount); reflexivity. Qed.

Lemma page_size_follows_view_mode_witness :
  State.itemsPerPage table_view = 10 /\ 0 < State.itemsPerPage table_view.
Proof.
  exact (page_size_follows_view_mode JS.toLowerCase_ascii table_view
           table_view_reachable).
Defined.

Lemma layout_matches_page_size_witness :
  layout table_view = GridView <-> State.itemsPerPage table_view = 9.
Proof.
  exact (proj2 (layout_matches_page_size JS.toLowerCase_ascii table_view
                  table_view_reachable)).
Defined.

Lemma current_page_positive_witness : 1 <= State.currentPage table_view.
Proof.
  exact (current_page_positive JS.toLowerCase_ascii table_view
           table_view_reachable).
Defined.

Lemma fee_type_is_an_option_witness :
  State.filterFeeType table_view ∈ [""; "free"; "paid"].
Proof.
  exact (fee_type_is_an_option JS.toLowerCase_ascii table_view
           table_view_reachable).
Defined.

(** ** More on fetchEvents and the records it makes *)

(** X22. Starting a refresh and the settling of its call change only the
    list, the loading flag and the error: the filter values, the current
    page, the page size, the view mode, the narrow-view flag and the
    selected event stay as they were. *)
Theorem refresh_keeps_view (ev : Event) (s : State.t) :
  ev = ClickRefresh \/ (exists o, ev = Settled o) ->
  filter_deps (step ev s) = filter_deps s
  /\ State.currentPage (step ev s) = State.currentPage s
  /\ State.itemsPerPage (step ev s) = State.itemsPerPage s
  /\ State.viewMode (step ev s) = State.viewMode s
  /\ State.isMobileView (step ev s) = State.isMobileView s
  /\ State.selectedEvent (step ev s) = State.selectedEvent s.
Proof.
  intros [-> | [o ->]].
  - rewrite step_quiet by reflexivity. repeat split.
  - assert (Hq : step (Settled o) s = fetchEvents_settle o s).
    { apply step_quiet; unfold handle, fetchEvents_settle;
        destruct o as [[r|]|]; [destruct (0 <? _)| | |destruct (0 <? _)| |];
        reflexivity. }
    rewrite Hq. unfold fetchEvents_settle.
    destruct o as [[r|]|]; [destruct (0 <? _)| |]; repeat split.
Qed.

Lemma refresh_keeps_view_witness :
  State.currentPage
    (step (Settled (Resolved (Some []))) (handlePageChange 3 populated)) = 3.
Proof.
  destruct (refresh_keeps_view (Settled (Resolved (Some [])))
              (handlePageChange 3 populated)
              (or_intror (ex_intro _ (Resolved (Some [])) eq_refl)))
    as (_ & H & _).
  exact H.
Defined.

(** X23. A refresh click followed by the settling of its call is
    [fetchEvents]; it always ends with the loading flag off, and it ends
    without an error exactly when the call resolved with a non-empty
    response. *)
Theorem fetchEvents_error_iff (o : FetchOutcome) (s : State.t) :
  step (Settled o) (step ClickRefresh s) = fetchEvents o s
  /\ State.loading (fetchEvents o s) = false
  /\ (State.error (fetchEvents o s) = None
      <-> exists e response, o = Resolved (Some (e :: response))).
Proof.
  split; [|split].
  - rewrite (step_quiet ClickRefresh) by reflexivity.
    apply step_quiet; unfold handle, fetchEvents_settle;
      destruct o as [[r|]|]; [destruct (0 <? _)| | |destruct (0 <? _)| |];
      reflexivity.
  - unfold fetchEvents, fetchEvents_settle.
    destruct o as [[r|]|]; [destruct (0 <? _)| |]; reflexivity.
  - unfold fetchEvents, fetchEvents_settle.
    destruct o as [[[|e r]|]|]; cbn.
    + split; [discriminate | intros (e & r & H); discriminate].
    + split; [intros _; now exists e, r | reflexivity].
    + split; [discriminate | intros (e & r & H); discriminate].
    + split; [discriminate | intros (e & r & H); discriminate].
Qed.

(** X25. Two raw records with the same normalized record are equal:
    normalization loses nothing. *)
Theorem normalize_injective (e1 e2 : GetTourList.t) :
  normalize e1 = normalize e2 -> e1 = e2.
Proof.
  destruct e1, e2. unfold normalize. cbn. intros H.
  injection H as -> -> -> -> -> _ ->. reflexivity.
Qed.

Lemma normalize_injective_witness : sample_raw = sample_raw.
Proof. apply (normalize_injective sample_raw sample_raw). reflexivity. Defined.


Lemma getCategoryColor_not_inherited_witness :
  getCategoryColor "스포츠" = JS.str fallback_color.
Proof.
  apply (getCategoryColor_not_inherited "스포츠").
  - intros H. unfold JS.Object_prototype in H.
    repeat (apply elem_of_cons in H as [H|H]; [discriminate|]).
    now apply elem_of_nil in H.
  - vm_compute. reflexivity.
Defined.
